(** * WEState: the world-editor store of the SDK shell

    A shallow embedding of
    [ext/sdk/resources/sdk-root/shell/src/personalities/WorldEditorPersonality/store/WEState.ts].

    The store is a singleton object with observable fields.  Its methods
    mutate those fields and talk to the outside (the game client, the API
    transport, the event buses, the input controller, the shell).  Here the
    fields are a record, every call that leaves the store is appended to a
    chronological log, and a method is a function from the world before the
    call to its completion and the world after it.

    Types and values that the file imports ([WESelection], [WEMap],
    [FilesystemEntry], the API endpoints, the debug toggle) are kept to the
    parts the store touches.  Two members are left out: the [mapName]
    getter, and the text of the camera-speed message that the store shows
    when the controller reports a new speed. *)

From Stdlib Require Import ZArith Bool List String Ascii Lia.
From Stdlib Require Import Floats.SpecFloat.
From Stdlib Require Import Numbers.DecimalString.
Import ListNotations.

Local Open Scope string_scope.
Local Open Scope Z_scope.
Local Open Scope list_scope.

(** ** JavaScript values used by the store *)

(** A JS [number] is an IEEE-754 binary64 value. *)
Definition number : Type := spec_float.

Definition prec : Z := 53.
Definition emax : Z := 1024.

(** [x === y] on two numbers: false as soon as one side is NaN, and the two
    zeros are equal. *)
Definition strict_equals_number (x y : number) : bool := SFeqb x y.

(** The number whose value is the integer [z]; [neg] is the sign given to a
    zero result. *)
Definition number_of_Z (z : Z) (neg : bool) : number :=
  binary_normalize prec emax z 0 neg.

(** [a === b] where [a] is a property that may be missing ([undefined]) and
    [b] is a value of the property's type. *)
Definition strict_equals_opt {A : Type} (eqb : A -> A -> bool)
    (a : option A) (b : A) : bool :=
  match a with
  | Some x => eqb x b
  | None => false
  end.

(** *** parseInt

    Strings are sequences of code units below 256.  The white space that
    [parseInt] skips is, in that range, TAB, LF, VT, FF, CR, SP and NBSP. *)
Definition isWhiteSpace (c : ascii) : bool :=
  let n := N_of_ascii c in
  (N.eqb n 9 || N.eqb n 10 || N.eqb n 11 || N.eqb n 12 || N.eqb n 13
   || N.eqb n 32 || N.eqb n 160)%bool.

Fixpoint trimStart (s : string) : string :=
  match s with
  | String c rest => if isWhiteSpace c then trimStart rest else s
  | EmptyString => s
  end.

(** The value of a radix-36 digit: 0-9, a-z, A-Z. *)
Definition digitValue (c : ascii) : option Z :=
  let n := Z.of_N (N_of_ascii c) in
  if (48 <=? n) && (n <=? 57) then Some (n - 48)
  else if (97 <=? n) && (n <=? 122) then Some (n - 87)
  else if (65 <=? n) && (n <=? 90) then Some (n - 55)
  else None.

(** The longest prefix of [s] made of digits of radix [R], as the integer it
    denotes; [acc] is [None] until a first digit has been read. *)
Fixpoint parseDigits (R : Z) (s : string) (acc : option Z) : option Z :=
  match s with
  | EmptyString => acc
  | String c rest =>
      match digitValue c with
      | Some d =>
          if d <? R then
            parseDigits R rest
              (Some (R * match acc with Some a => a | None => 0 end + d))
          else acc
      | None => acc
      end
  end.

(** The text after a leading [0x] or [0X], when there is one. *)
Definition hexPrefixed (s : string) : option string :=
  match s with
  | String "0" (String "x" rest) => Some rest
  | String "0" (String "X" rest) => Some rest
  | _ => None
  end.

(** [parseInt(s, radix)] for an integer [radix] in the int32 range: skip
    white space, read a sign, settle the radix (0 means 10, or 16 behind a
    hex prefix, which radix 16 also accepts), read digits, and round the
    integer read to a number.  No digit at all gives NaN. *)
Definition parseInt (s : string) (radix : Z) : number :=
  let trimmed := trimStart s in
  let '(neg, body) :=
    match trimmed with
    | String "-" rest => (true, rest)
    | String "+" rest => (false, rest)
    | _ => (false, trimmed)
    end in
  if (radix =? 0) || ((2 <=? radix) && (radix <=? 36)) then
    let stripPrefix := (radix =? 0) || (radix =? 16) in
    let '(R, body) :=
      match hexPrefixed body with
      | Some rest =>
          if stripPrefix then (16, rest)
          else (radix, body)
      | None => (if radix =? 0 then 10 else radix, body)
      end in
    match parseDigits R body None with
    | None => S754_nan
    | Some v => number_of_Z (if neg then - v else v) neg
    end
  else S754_nan.

(** ** Types of the world editor *)

Module WEMode.
Inductive t := EDITOR | PLAYTEST.
Definition eqb (a b : t) : bool :=
  match a, b with
  | EDITOR, EDITOR | PLAYTEST, PLAYTEST => true
  | _, _ => false
  end.
End WEMode.

Module EditorMode.
Inductive t := TRANSLATE | ROTATE | SCALE.
End EditorMode.

Module WESelectionType.
Inductive t := NONE | PATCH | ADDITION.
Definition eqb (a b : t) : bool :=
  match a, b with
  | NONE, NONE | PATCH, PATCH | ADDITION, ADDITION => true
  | _, _ => false
  end.
End WESelectionType.

Module WECommandScope.
Inductive t := EDITOR | CONFIGURATOR.
End WECommandScope.

Module ShellPersonality.
Inductive t := THEIA | WORLD_EDITOR.
End ShellPersonality.

Module WECommand.
Inductive t :=
| CONTROL_COORD_SYSTEM_TOGGLE
| CONTROL_MODE_TRANSLATE_TOGGLE
| CONTROL_MODE_ROTATE_TOGGLE
| CONTROL_MODE_SCALE_TOGGLE
| CONTROL_CLEAR_SELECTION
| ACTION_SET_ADDITION_ON_GROUND
| ACTION_ENTER_PLAYTEST_MODE.
End WECommand.

(** A selection is a JS object: a [type] tag and the properties the store
    reads from it, each of which may be missing. *)
Record WESelection := mkSelection {
  type : WESelectionType.t;
  id : option string;
  mapdata : option number;
  entity : option number
}.

(** The three shapes the editor builds. *)
Definition selectNone : WESelection :=
  mkSelection WESelectionType.NONE None None None.
Definition selectAddition (additionId : string) : WESelection :=
  mkSelection WESelectionType.ADDITION (Some additionId) None None.
Definition selectPatch (m e : number) : WESelection :=
  mkSelection WESelectionType.PATCH None (Some m) (Some e).

(** The properties of a filesystem entry that the store uses. *)
Record FilesystemEntry := mkEntry {
  name : string;
  path : string
}.

(** A map as the backend sends it; the store hands it on without looking
    inside. *)
Inductive WEMap := MapDocument (content : string).

(** Objects made with [new] carry the reference they were allocated at. *)
Definition Ref : Type := nat.

(** [new WEMapState(map)]. *)
Record WEMapState := mkMapState {
  mapStateRef : Ref;
  sourceMap : WEMap
}.

(** A React ref to the editor's [div]. *)
Inductive Container := ContainerRef (n : nat).

(** [new InputController(container, setEditorSelect)]. *)
Record InputController := mkInputController {
  controllerRef : Ref;
  container : Container
}.

(** A camera: position and rotation, as an array of numbers. *)
Definition WECam : Type := list number.

(** ** What leaves the store *)

(** The second argument of [sendGameClientEvent] is a string.  The store
    passes either a string literal or the result of calling
    [JSON.stringify] on one of three kinds of value. *)
Inductive Serialized :=
| ofCam (cam : list number)
| ofFocus (cam : WECam) (lookAt : number * number * number)
| ofSelection (selection : WESelection).

Inductive Payload :=
| Literal (text : string)
| JSON_stringify (value : Serialized).

Module worldEditorApi.
Inductive t := start | stop | mapLoaded.
End worldEditorApi.

(** The data sent along an API message. *)
Inductive ApiData :=
| WorldEditorStartRequest (mapPath : string).

(** A request of the game client for the current map, handed to the map
    state as it came. *)
Inductive MapRequest := RequestData (content : string).

(** The functions the store registers with its input controller. *)
Inductive Callback :=
| cb_setEditorSelect
| cb_enterEditorMode
| cb_cameraSpeedMessage.

Inductive ControllerMethod :=
| enterFullControl
| exitFullControl
| setScope (scope : WECommandScope.t)
| destroy
| onEscapeFullControl (cb : Callback)
| onCameraMovementBaseMultiplierChange (cb : Callback).

Inductive MapStateMethod :=
| handleCreatePatchRequest (request : MapRequest)
| handleSetAdditionRequest (request : MapRequest)
| handleApplyPatchChangeRequest (request : MapRequest)
| handleApplyAdditionChangeRequest (request : MapRequest)
| setAdditionOnGround (additionId : option string).

(** One entry per call that leaves the store, named after the callee. *)
Inductive Effect :=
| sendGameClientEvent (eventName : string) (payload : Payload)
| sendApiMessage (endpoint : worldEditorApi.t) (data : option ApiData)
| selectionChanged_emit (selection : WESelection)
| gizmoSelectChanged_emit (select : bool)
| setWorldEditorControls (select : bool) (mode : EditorMode.t) (local : bool)
| refreshArchetypesCollection
| WEHistory_reset
| setPersonality (personality : ShellPersonality.t)
| new_InputController (controller : InputController) (onSelect : Callback)
| InputController_call (controller : Ref) (method : ControllerMethod)
| new_WEMapState (state : WEMapState)
| WEMapState_call (state : Ref) (method : MapStateMethod).

(** What the store listens to: window events of the game client, an API
    message, and the event bus of the editor. *)
Inductive HostEvent :=
| window_selection (sel : WESelection)
| window_ready
| window_createPatch (request : MapRequest)
| window_setAddition (request : MapRequest)
| window_applyPatchChange (request : MapRequest)
| window_applyAdditionChange (request : MapRequest)
| api_mapLoaded (m : WEMap)
| additionDeleted (deletedId : string).

(** ** The store *)

Record WEState := mkWEState {
  inputController : option InputController;
  ready : bool;
  mode : WEMode.t;
  editorSelect : bool;
  editorMode : EditorMode.t;
  editorLocal : bool;
  selection : WESelection;
  map : option WEMapState;
  mapEntry : option FilesystemEntry;
  introSeen : bool;
  forceShowIntro : bool
}.

(** The store together with what it reads from and writes to around it:
    the readiness flag of [GameState], the next free reference for [new],
    and the log of calls made so far, oldest first. *)
Record World := mkWorld {
  store : WEState;
  archetypesCollectionReady : bool;
  nextRef : Ref;
  log : list Effect
}.

Inductive JSError := TypeError.

Inductive Completion (A : Type) :=
| Normal (value : A)
| Throw (error : JSError).
Arguments Normal {A} value.
Arguments Throw {A} error.

Definition Action (A : Type) : Type := World -> Completion A * World.

Definition ret {A : Type} (a : A) : Action A := fun w => (Normal a, w).

Definition bind {A B : Type} (m : Action A) (k : A -> Action B) : Action B :=
  fun w =>
    match m w with
    | (Normal a, w') => k a w'
    | (Throw e, w') => (Throw e, w')
    end.

Definition throw {A : Type} (e : JSError) : Action A := fun w => (Throw e, w).

Declare Scope action_scope.
Delimit Scope action_scope with action.
Notation "x <- m ;; k" := (bind m (fun x => k))
  (at level 61, m at next level, right associativity) : action_scope.
Notation "m ;; k" := (bind m (fun _ => k))
  (at level 61, right associativity) : action_scope.
Local Open Scope action_scope.

Definition this : Action WEState := fun w => (Normal (store w), w).

Definition assign (f : WEState -> WEState) : Action unit :=
  fun w => (Normal tt,
            mkWorld (f (store w)) (archetypesCollectionReady w) (nextRef w)
                    (log w)).

Definition call (e : Effect) : Action unit :=
  fun w => (Normal tt,
            mkWorld (store w) (archetypesCollectionReady w) (nextRef w)
                    (log w ++ [e])).

(** [new]: take the next free reference. *)
Definition allocate : Action Ref :=
  fun w => (Normal (nextRef w),
            mkWorld (store w) (archetypesCollectionReady w) (S (nextRef w))
                    (log w)).

Definition readArchetypesCollectionReady : Action bool :=
  fun w => (Normal (archetypesCollectionReady w), w).

Definition when (b : bool) (m : Action unit) : Action unit :=
  if b then m else ret tt.

(** Field assignments. *)
Definition set_inputController (v : option InputController) (s : WEState) :=
  mkWEState v (ready s) (mode s) (editorSelect s) (editorMode s)
    (editorLocal s) (selection s) (map s) (mapEntry s) (introSeen s)
    (forceShowIntro s).
Definition set_ready (v : bool) (s : WEState) :=
  mkWEState (inputController s) v (mode s) (editorSelect s) (editorMode s)
    (editorLocal s) (selection s) (map s) (mapEntry s) (introSeen s)
    (forceShowIntro s).
Definition set_mode (v : WEMode.t) (s : WEState) :=
  mkWEState (inputController s) (ready s) v (editorSelect s) (editorMode s)
    (editorLocal s) (selection s) (map s) (mapEntry s) (introSeen s)
    (forceShowIntro s).
Definition set_editorSelect (v : bool) (s : WEState) :=
  mkWEState (inputController s) (ready s) (mode s) v (editorMode s)
    (editorLocal s) (selection s) (map s) (mapEntry s) (introSeen s)
    (forceShowIntro s).
Definition set_editorMode (v : EditorMode.t) (s : WEState) :=
  mkWEState (inputController s) (ready s) (mode s) (editorSelect s) v
    (editorLocal s) (selection s) (map s) (mapEntry s) (introSeen s)
    (forceShowIntro s).
Definition set_editorLocal (v : bool) (s : WEState) :=
  mkWEState (inputController s) (ready s) (mode s) (editorSelect s)
    (editorMode s) v (selection s) (map s) (mapEntry s) (introSeen s)
    (forceShowIntro s).
Definition set_selection (v : WESelection) (s : WEState) :=
  mkWEState (inputController s) (ready s) (mode s) (editorSelect s)
    (editorMode s) (editorLocal s) v (map s) (mapEntry s) (introSeen s)
    (forceShowIntro s).
Definition set_map (v : option WEMapState) (s : WEState) :=
  mkWEState (inputController s) (ready s) (mode s) (editorSelect s)
    (editorMode s) (editorLocal s) (selection s) v (mapEntry s) (introSeen s)
    (forceShowIntro s).
Definition set_mapEntry (v : option FilesystemEntry) (s : WEState) :=
  mkWEState (inputController s) (ready s) (mode s) (editorSelect s)
    (editorMode s) (editorLocal s) (selection s) (map s) v (introSeen s)
    (forceShowIntro s).
Definition set_introSeen (v : bool) (s : WEState) :=
  mkWEState (inputController s) (ready s) (mode s) (editorSelect s)
    (editorMode s) (editorLocal s) (selection s) (map s) (mapEntry s) v
    (forceShowIntro s).
Definition set_forceShowIntro (v : bool) (s : WEState) :=
  mkWEState (inputController s) (ready s) (mode s) (editorSelect s)
    (editorMode s) (editorLocal s) (selection s) (map s) (mapEntry s)
    (introSeen s) v.

(** [this.inputController.m()]: a call on [undefined] throws. *)
Definition callInputController (m : ControllerMethod) : Action unit :=
  s <- this ;;
  match inputController s with
  | Some ic => call (InputController_call (controllerRef ic) m)
  | None => throw TypeError
  end.

(** [this.map?.m(...)]: nothing happens without a map. *)
Definition callMapIfAny (m : MapStateMethod) : Action unit :=
  s <- this ;;
  match map s with
  | Some ms => call (WEMapState_call (mapStateRef ms) m)
  | None => ret tt
  end.

(** ** The methods of the store *)

Section Store.

(** [__DEBUG_MODE_TOGGLES__.WORLD_EDITOR_UI_ONLY], a build-time constant of
    [constants/debug-constants]. *)
Variable WORLD_EDITOR_UI_ONLY : bool.


Definition openIntro : Action unit :=
  assign (set_forceShowIntro true).

Definition closeIntro : Action unit :=
  s <- this ;;
  when (negb (introSeen s)) (assign (set_introSeen true)) ;;
  assign (set_forceShowIntro false).

Definition enterPlaytestMode : Action unit :=
  s <- this ;;
  if WEMode.eqb (mode s) WEMode.PLAYTEST then ret tt
  else
    call (sendGameClientEvent "we:enterPlaytestMode" (Literal "")) ;;
    assign (set_mode WEMode.PLAYTEST) ;;
    callInputController enterFullControl.

Definition enterEditorMode (relative : bool) : Action unit :=
  s <- this ;;
  if WEMode.eqb (mode s) WEMode.EDITOR then ret tt
  else
    call (sendGameClientEvent "we:exitPlaytestMode"
            (Literal (if relative then "true" else ""))) ;;
    assign (set_mode WEMode.EDITOR) ;;
    callInputController exitFullControl.

Definition enterHotkeyConfigurationMode : Action unit :=
  callInputController (setScope WECommandScope.CONFIGURATOR).

Definition exitHotkeyConfigurationMode : Action unit :=
  callInputController (setScope WECommandScope.EDITOR).

Definition setCam (cam : list number) : Action unit :=
  call (sendGameClientEvent "we:setCam" (JSON_stringify (ofCam cam))).

Definition focusInView (cam : WECam) (lookAt : number * number * number)
  : Action unit :=
  call (sendGameClientEvent "we:focusInView"
          (JSON_stringify (ofFocus cam lookAt))).

Definition openMap (entry : FilesystemEntry) : Action unit :=
  assign (set_map None) ;;
  assign (set_mapEntry (Some entry)) ;;
  call WEHistory_reset ;;
  call (sendApiMessage worldEditorApi.start
          (Some (WorldEditorStartRequest (path entry)))) ;;
  call (setPersonality ShellPersonality.WORLD_EDITOR).

Definition closeMap : Action unit :=
  when (Bool.eqb false WORLD_EDITOR_UI_ONLY) (assign (set_ready false)) ;;
  assign (set_map None) ;;
  assign (set_mapEntry None) ;;
  call (sendApiMessage worldEditorApi.stop None) ;;
  call (setPersonality ShellPersonality.THEIA).

Definition updateEditorControls : Action unit :=
  s <- this ;;
  call (setWorldEditorControls (editorSelect s) (editorMode s) (editorLocal s)).

Definition enableTranslation : Action unit :=
  assign (set_editorMode EditorMode.TRANSLATE) ;;
  updateEditorControls.

Definition enableRotation : Action unit :=
  assign (set_editorMode EditorMode.ROTATE) ;;
  updateEditorControls.

Definition enableScaling : Action unit :=
  assign (set_editorMode EditorMode.SCALE) ;;
  updateEditorControls.

Definition toggleEditorLocal : Action unit :=
  s <- this ;;
  assign (set_editorLocal (negb (editorLocal s))) ;;
  updateEditorControls.

Definition setEditorSelect (select : bool) : Action unit :=
  assign (set_editorSelect select) ;;
  call (gizmoSelectChanged_emit select) ;;
  updateEditorControls.

Definition isAdditionSelected (additionId : string) (s : WEState) : bool :=
  if negb (WESelectionType.eqb (type (selection s)) WESelectionType.ADDITION)
  then false
  else strict_equals_opt String.eqb (id (selection s)) additionId.

Definition isPatchSelected (mapdataArg entityArg : string) (s : WEState)
  : bool :=
  if negb (WESelectionType.eqb (type (selection s)) WESelectionType.PATCH)
  then false
  else
    strict_equals_opt strict_equals_number (mapdata (selection s))
      (parseInt mapdataArg 10)
    && strict_equals_opt strict_equals_number (entity (selection s))
         (parseInt entityArg 10).

Definition updateSelection (sel : WESelection) : Action unit :=
  assign (set_selection sel) ;;
  call (selectionChanged_emit sel).

Definition setEditorSelection (sel : WESelection) : Action unit :=
  updateSelection sel ;;
  call (sendGameClientEvent "we:selection" (JSON_stringify (ofSelection sel))).

Definition clearEditorSelection : Action unit :=
  setEditorSelection selectNone.

Definition createInputController (c : Container) : Action unit :=
  r <- allocate ;;
  let ic := mkInputController r c in
  call (new_InputController ic cb_setEditorSelect) ;;
  assign (set_inputController (Some ic)) ;;
  callInputController (onEscapeFullControl cb_enterEditorMode) ;;
  callInputController (onCameraMovementBaseMultiplierChange
                         cb_cameraSpeedMessage).

Definition destroyInputController : Action unit :=
  updateSelection selectNone ;;
  s <- this ;;
  match inputController s with
  | Some ic =>
      call (InputController_call (controllerRef ic) destroy) ;;
      assign (set_inputController None)
  | None => ret tt
  end.

(** *** bindEvents: what the store listens to *)


Definition on_ready : Action unit :=
  assign (set_ready true) ;;
  isReady <- readArchetypesCollectionReady ;;
  when (negb isReady) (call refreshArchetypesCollection).

Definition on_mapLoaded (m : WEMap) : Action unit :=
  r <- allocate ;;
  let ms := mkMapState r m in
  call (new_WEMapState ms) ;;
  assign (set_map (Some ms)).

Definition on_additionDeleted (deletedId : string) : Action unit :=
  s <- this ;;
  when (WESelectionType.eqb (type (selection s)) WESelectionType.ADDITION
        && strict_equals_opt String.eqb (id (selection s)) deletedId)
    clearEditorSelection.

(** The listener that [bindEvents] installs for each event. *)
Definition bindEvents (e : HostEvent) : Action unit :=
  match e with
  | window_selection sel => updateSelection sel
  | window_ready => on_ready
  | window_createPatch request =>
      callMapIfAny (handleCreatePatchRequest request)
  | window_setAddition request =>
      callMapIfAny (handleSetAdditionRequest request)
  | window_applyPatchChange request =>
      callMapIfAny (handleApplyPatchChangeRequest request)
  | window_applyAdditionChange request =>
      callMapIfAny (handleApplyAdditionChangeRequest request)
  | api_mapLoaded m => on_mapLoaded m
  | additionDeleted deletedId => on_additionDeleted deletedId
  end.

(** *** bindCommands: what each command executes *)

Definition setSelectedAdditionOnGround : Action unit :=
  s <- this ;;
  match map s with
  | Some ms =>
      when (WESelectionType.eqb (type (selection s)) WESelectionType.ADDITION)
        (call (WEMapState_call (mapStateRef ms)
                 (setAdditionOnGround (id (selection s)))))
  | None => ret tt
  end.

Definition bindCommands (c : WECommand.t) : Action unit :=
  match c with
  | WECommand.CONTROL_COORD_SYSTEM_TOGGLE => toggleEditorLocal
  | WECommand.CONTROL_MODE_TRANSLATE_TOGGLE => enableTranslation
  | WECommand.CONTROL_MODE_ROTATE_TOGGLE => enableRotation
  | WECommand.CONTROL_MODE_SCALE_TOGGLE => enableScaling
  | WECommand.CONTROL_CLEAR_SELECTION => clearEditorSelection
  | WECommand.ACTION_SET_ADDITION_ON_GROUND => setSelectedAdditionOnGround
  | WECommand.ACTION_ENTER_PLAYTEST_MODE => enterPlaytestMode
  end.

(** *** The constructor *)

Definition initialFields : WEState :=
  mkWEState None false WEMode.EDITOR false EditorMode.TRANSLATE false
    selectNone None None false false.

(** The store after [new WEState()], for a given stored value of
    [we:introSeen]. *)
Definition constructor (storedIntroSeen : bool) : WEState :=
  let s := set_introSeen storedIntroSeen initialFields in
  if WORLD_EDITOR_UI_ONLY then set_ready true s else s.

End Store.

(** ** Running the store *)

(** Modelled from the spec: the [InputController] class is not part of this
    file.  The glossary's "full input capture" is the flag that
    [enterFullControl] raises and [exitFullControl] and [destroy] lower;
    [fullControl r l] replays the calls that the log [l] holds for the
    controller allocated at [r]. *)
Definition fullControlStep (r : Ref) (flag : bool) (e : Effect) : bool :=
  match e with
  | InputController_call r' m =>
      if Nat.eqb r' r then
        match m with
        | enterFullControl => true
        | exitFullControl => false
        | destroy => false
        | _ => flag
        end
      else flag
  | _ => flag
  end.

Definition fullControl (r : Ref) (l : list Effect) : bool :=
  fold_left (fullControlStep r) l false.

(** What an action appends to the log when it runs from [w]. *)
Definition emitted {A : Type} (a : Action A) (w : World) : list Effect :=
  skipn (List.length (log w)) (log (snd (a w))).

Definition isGameClientEvent (e : Effect) : bool :=
  match e with
  | sendGameClientEvent _ _ => true
  | _ => false
  end.


(** The entry points of the store: its public methods, the listeners of
    [bindEvents] and the commands of [bindCommands]. *)
Inductive Entry :=
| do_openIntro
| do_closeIntro
| do_enterPlaytestMode
| do_enterEditorMode (relative : bool)
| do_enterHotkeyConfigurationMode
| do_exitHotkeyConfigurationMode
| do_setCam (cam : list number)
| do_focusInView (cam : WECam) (lookAt : number * number * number)
| do_openMap (entry : FilesystemEntry)
| do_closeMap
| do_enableTranslation
| do_enableRotation
| do_enableScaling
| do_toggleEditorLocal
| do_setEditorSelect (select : bool)
| do_setEditorSelection (sel : WESelection)
| do_clearEditorSelection
| do_createInputController (c : Container)
| do_destroyInputController
| do_event (e : HostEvent)
| do_command (c : WECommand.t).

Definition run (uiOnly : bool) (e : Entry) : Action unit :=
  match e with
  | do_openIntro => openIntro
  | do_closeIntro => closeIntro
  | do_enterPlaytestMode => enterPlaytestMode
  | do_enterEditorMode relative => enterEditorMode relative
  | do_enterHotkeyConfigurationMode => enterHotkeyConfigurationMode
  | do_exitHotkeyConfigurationMode => exitHotkeyConfigurationMode
  | do_setCam cam => setCam cam
  | do_focusInView cam lookAt => focusInView cam lookAt
  | do_openMap entry => openMap entry
  | do_closeMap => closeMap uiOnly
  | do_enableTranslation => enableTranslation
  | do_enableRotation => enableRotation
  | do_enableScaling => enableScaling
  | do_toggleEditorLocal => toggleEditorLocal
  | do_setEditorSelect select => setEditorSelect select
  | do_setEditorSelection sel => setEditorSelection sel
  | do_clearEditorSelection => clearEditorSelection
  | do_createInputController c => createInputController c
  | do_destroyInputController => destroyInputController
  | do_event e => bindEvents e
  | do_command c => bindCommands c
  end.

(** The world right after the store is constructed. *)
Definition initialWorld (uiOnly storedIntroSeen archetypesReady : bool)
  : World :=
  mkWorld (constructor uiOnly storedIntroSeen) archetypesReady 0%nat [].

(** The worlds the store can be in: the initial one, then any sequence of
    entry points, with [GameState] free to change its readiness flag in
    between. *)
Inductive reachable (uiOnly : bool) : World -> Prop :=
| reach_initial : forall storedIntroSeen archetypesReady,
    reachable uiOnly (initialWorld uiOnly storedIntroSeen archetypesReady)
| reach_run : forall w e,
    reachable uiOnly w -> reachable uiOnly (snd (run uiOnly e w))
| reach_gameState : forall w b,
    reachable uiOnly w ->
    reachable uiOnly (mkWorld (store w) b (nextRef w) (log w)).

(** Every object the store holds was allocated before the next free
    reference. *)
Definition wellAllocated (w : World) : Prop :=
  (forall ic, inputController (store w) = Some ic ->
              (controllerRef ic < nextRef w)%nat)
  /\ (forall ms, map (store w) = Some ms ->
                 (mapStateRef ms < nextRef w)%nat).

(** The calls made on the installed controller, or none when there is no
    controller to call. *)
Definition controllerCalls (s : WEState) (m : ControllerMethod)
  : list Effect :=
  match inputController s with
  | Some ic => [InputController_call (controllerRef ic) m]
  | None => []
  end.

Definition controllerCompletion (s : WEState) : Completion unit :=
  match inputController s with
  | Some _ => Normal tt
  | None => Throw TypeError
  end.

(** ** Members outside the store's transitions *)

(** [s] without the prefix [pat], when it starts with it. *)
Fixpoint stripPrefix (pat s : string) : option string :=
  match pat with
  | EmptyString => Some s
  | String a pat' =>
      match s with
      | String b s' => if Ascii.eqb a b then stripPrefix pat' s' else None
      | EmptyString => None
      end
  end.

(** [s.replace(pat, rep)] for a string pattern and a replacement text that
    holds no [$]: the first occurrence of [pat] in [s], if any, becomes
    [rep]. *)
Fixpoint String_replace (s pat rep : string) : string :=
  match stripPrefix pat s with
  | Some rest => (rep ++ rest)%string
  | None =>
      match s with
      | EmptyString => EmptyString
      | String c s' => String c (String_replace s' pat rep)
      end
  end.

(** The [mapName] getter; [FXWORLD_FILE_EXT] is a string constant of
    [assets/fxworld/fxworld-types]. *)
Definition mapName (FXWORLD_FILE_EXT : string) (s : WEState) : string :=
  match mapEntry s with
  | Some e => String_replace (name e) FXWORLD_FILE_EXT ""
  | None => ""
  end.

(** The integer part of a number, zero for NaN and the infinities. *)
Definition truncate (x : number) : Z :=
  match x with
  | S754_finite sign m e =>
      let magnitude :=
        if 0 <=? e then Z.shiftl (Zpos m) e else Z.shiftr (Zpos m) (- e) in
      if sign then - magnitude else magnitude
  | _ => 0
  end.

(** [x | 0]: the integer part of [x] wrapped to a signed 32-bit integer. *)
Definition toInt32 (x : number) : Z :=
  let k := truncate x mod 2 ^ 32 in
  if 2 ^ 31 <=? k then k - 2 ^ 32 else k.

(** The decimal text of an integer, as a template literal prints it. *)
Definition integerToString (z : Z) : string :=
  NilZero.string_of_int (Z.to_int z).

(** The text that the camera-speed callback of [createInputController]
    hands to [FlashingMessageState.setMessage]. *)
Definition cameraSpeedMessage (speed : number) : string :=
  ("Camera speed: "
   ++ integerToString
        (toInt32 (SFmul prec emax speed (number_of_Z 100 false)))
   ++ "%")%string.

(** ** What the log says about the editor controls *)

(** The arguments of the latest [setWorldEditorControls] call, if there was
    one. *)
Definition controlsStep (acc : option (bool * EditorMode.t * bool))
    (e : Effect) : option (bool * EditorMode.t * bool) :=
  match e with
  | setWorldEditorControls select m local => Some (select, m, local)
  | _ => acc
  end.

Definition lastControls (l : list Effect)
  : option (bool * EditorMode.t * bool) :=
  fold_left controlsStep l None.

Definition currentControls (s : WEState) : bool * EditorMode.t * bool :=
  (editorSelect s, editorMode s, editorLocal s).

(** The game client has been told the controls the store holds, or has been
    told nothing while the store still holds the initial ones. *)
Definition controlsInSync (w : World) : Prop :=
  match lastControls (log w) with
  | Some c => c = currentControls (store w)
  | None => currentControls (store w) = (false, EditorMode.TRANSLATE, false)
  end.

Definition isDestroyCall (e : Effect) : bool :=
  match e with
  | InputController_call _ destroy => true
  | _ => false
  end.

Definition isEnterFullControlCall (e : Effect) : bool :=
  match e with
  | InputController_call _ enterFullControl => true
  | _ => false
  end.

(** A number with a fraction: 1.5. *)
Definition oneAndHalf : number := S754_finite false 3 (-1).

(** ** Sample worlds *)

(** A freshly constructed store whose editor view has mounted: a controller
    is installed and the mode is EDITOR. *)
Definition mountedWorld : World :=
  snd (createInputController (ContainerRef 0) (initialWorld false false false)).

(** The same store once play mode has been entered. *)
Definition playingWorld : World := snd (enterPlaytestMode mountedWorld).

(** The mounted store with the addition [car] selected. *)
Definition carSelectedWorld : World :=
  snd (setEditorSelection (selectAddition "car") mountedWorld).

(** A store whose selection is the patch of entity 9 in mapdata 7. *)
Definition patchSelected : WEState :=
  set_selection (selectPatch (number_of_Z 7 false) (number_of_Z 9 false))
    initialFields.

(** A store whose selection is tagged NONE but carries the properties of
    the other two shapes. *)
Definition strayNoneSelected : WEState :=
  set_selection
    (mkSelection WESelectionType.NONE (Some "car")
       (Some (number_of_Z 7 false)) (Some (number_of_Z 9 false)))
    initialFields.


(** * Properties *)

(** ** parseInt on concrete texts *)

Example parseInt_42 : parseInt "42" 10 = number_of_Z 42 false.
Proof. reflexivity. Qed.

Example parseInt_padded : parseInt "  -17px" 10 = number_of_Z (-17) true.
Proof. reflexivity. Qed.

Example parseInt_no_digit : parseInt "abc" 10 = S754_nan.
Proof. reflexivity. Qed.

Example parseInt_hex_text_radix_10 : parseInt "0x1f" 10 = number_of_Z 0 false.
Proof. reflexivity. Qed.

Example parseInt_hex_text_radix_16 : parseInt "0x1f" 16 = number_of_Z 31 false.
Proof. reflexivity. Qed.

Example parseInt_rounds_to_even :
  parseInt "9007199254740993" 10 = number_of_Z 9007199254740992 false.
Proof. reflexivity. Qed.

Example parseInt_negative_zero : parseInt "-0" 10 = S754_zero true.
Proof. reflexivity. Qed.

(** ** Comparisons *)

Lemma WESelectionType_eqb_eq (a b : WESelectionType.t) :
  WESelectionType.eqb a b = true <-> a = b.
Proof. destruct a, b; simpl; split; congruence. Qed.

Lemma WEMode_eqb_eq (a b : WEMode.t) : WEMode.eqb a b = true <-> a = b.
Proof. destruct a, b; simpl; split; congruence. Qed.

Lemma WESelectionType_cases (t : WESelectionType.t) :
  t = WESelectionType.NONE \/ t = WESelectionType.ADDITION
  \/ t = WESelectionType.PATCH.
Proof. destruct t; auto. Qed.

(** Nothing is strictly equal to NaN. *)
Lemma strict_equals_number_nan (x : number) :
  strict_equals_number x S754_nan = false.
Proof. destruct x as [ [|] | [|] | | [|] m e ]; reflexivity. Qed.

Lemma strict_equals_opt_string (a : option string) (b : string) :
  strict_equals_opt String.eqb a b = true <-> a = Some b.
Proof.
  destruct a as [x|]; simpl.
  - rewrite String.eqb_eq. split; congruence.
  - split; discriminate.
Qed.

Lemma strict_equals_opt_number (a : option number) (b : number) :
  strict_equals_opt strict_equals_number a b = true <->
  exists x, a = Some x /\ strict_equals_number x b = true.
Proof.
  destruct a as [x|]; simpl.
  - split.
    + intros H. exists x. auto.
    + intros [y [Hy H]]. injection Hy as ->. exact H.
  - split; [discriminate | intros [y [Hy _]]; discriminate].
Qed.

(** ** Selection predicates *)

Lemma isAdditionSelected_true (additionId : string) (s : WEState) :
  isAdditionSelected additionId s = true <->
  type (selection s) = WESelectionType.ADDITION
  /\ id (selection s) = Some additionId.
Proof.
  unfold isAdditionSelected.
  destruct (WESelectionType.eqb (type (selection s)) WESelectionType.ADDITION)
    eqn:E; simpl.
  - apply WESelectionType_eqb_eq in E.
    rewrite strict_equals_opt_string. tauto.
  - split; [discriminate|].
    intros [H _]. apply WESelectionType_eqb_eq in H. congruence.
Qed.

Lemma isPatchSelected_true (mapdataArg entityArg : string) (s : WEState) :
  isPatchSelected mapdataArg entityArg s = true <->
  type (selection s) = WESelectionType.PATCH
  /\ exists m e,
       mapdata (selection s) = Some m /\ entity (selection s) = Some e
       /\ strict_equals_number m (parseInt mapdataArg 10) = true
       /\ strict_equals_number e (parseInt entityArg 10) = true.
Proof.
  unfold isPatchSelected.
  destruct (WESelectionType.eqb (type (selection s)) WESelectionType.PATCH)
    eqn:E; simpl.
  - apply WESelectionType_eqb_eq in E.
    rewrite andb_true_iff, !strict_equals_opt_number. split.
    + intros [[m [Hm Em]] [e [He Ee]]]. split; [exact E|].
      exists m, e. auto.
    + intros [_ [m [e [Hm [He [Em Ee]]]]]]. split; eauto.
  - split; [discriminate|].
    intros [H _]. apply WESelectionType_eqb_eq in H. congruence.
Qed.

Lemma isPatchSelected_nan (mapdataArg entityArg : string) (s : WEState) :
  parseInt mapdataArg 10 = S754_nan \/ parseInt entityArg 10 = S754_nan ->
  isPatchSelected mapdataArg entityArg s = false.
Proof.
  intros H. destruct (isPatchSelected mapdataArg entityArg s) eqn:E; auto.
  apply isPatchSelected_true in E.
  destruct E as [_ [m [e [_ [_ [Em Ee]]]]]].
  destruct H as [H|H]; rewrite H, strict_equals_number_nan in *; discriminate.
Qed.

(** C1. The selection's tag ranges over none, addition and patch, and it
    decides which properties count: [isAdditionSelected] answers true
    exactly for a selection tagged ADDITION whose [id] is the given one,
    [isPatchSelected] answers true exactly for a selection tagged PATCH
    whose [mapdata] and [entity] are strictly equal to the two arguments
    parsed as decimal integers (so never when an argument does not parse),
    and both answer false for a selection tagged NONE whatever else it
    holds. *)
Theorem selection_predicates_follow_tag :
  forall (s : WEState) (additionId mapdataArg entityArg : string),
    (type (selection s) = WESelectionType.NONE
     \/ type (selection s) = WESelectionType.ADDITION
     \/ type (selection s) = WESelectionType.PATCH)
    /\ (isAdditionSelected additionId s = true <->
        type (selection s) = WESelectionType.ADDITION
        /\ id (selection s) = Some additionId)
    /\ (isPatchSelected mapdataArg entityArg s = true <->
        type (selection s) = WESelectionType.PATCH
        /\ exists m e,
             mapdata (selection s) = Some m /\ entity (selection s) = Some e
             /\ strict_equals_number m (parseInt mapdataArg 10) = true
             /\ strict_equals_number e (parseInt entityArg 10) = true)
    /\ (parseInt mapdataArg 10 = S754_nan \/ parseInt entityArg 10 = S754_nan ->
        isPatchSelected mapdataArg entityArg s = false)
    /\ (type (selection s) = WESelectionType.NONE ->
        isAdditionSelected additionId s = false
        /\ isPatchSelected mapdataArg entityArg s = false).
Proof.
  intros s additionId mapdataArg entityArg.
  split; [apply WESelectionType_cases|].
  split; [apply isAdditionSelected_true|].
  split; [apply isPatchSelected_true|].
  split; [apply isPatchSelected_nan|].
  intros HN. unfold isAdditionSelected, isPatchSelected.
  rewrite HN. split; reflexivity.
Qed.

(** ** Unfolding actions *)

Ltac exec :=
  unfold bind, ret, throw, this, assign, call, allocate, when,
    readArchetypesCollectionReady; simpl.

Lemma app_two {A : Type} (l : list A) (a b : A) :
  (l ++ [a]) ++ [b] = l ++ [a; b].
Proof. rewrite <- app_assoc. reflexivity. Qed.

Lemma app_three {A : Type} (l : list A) (a b c : A) :
  ((l ++ [a]) ++ [b]) ++ [c] = l ++ [a; b; c].
Proof. rewrite <- !app_assoc. reflexivity. Qed.

Lemma emitted_app {A : Type} (a : Action A) (w : World) (l : list Effect) :
  log (snd (a w)) = log w ++ l -> emitted a w = l.
Proof.
  intros H. unfold emitted. rewrite H.
  rewrite skipn_app, skipn_all, Nat.sub_diag. reflexivity.
Qed.

Lemma fullControl_app (r : Ref) (l l' : list Effect) :
  fullControl r (l ++ l') = fold_left (fullControlStep r) l' (fullControl r l).
Proof. unfold fullControl. apply fold_left_app. Qed.

(** ** Editor and playtest mode *)

Lemma enterPlaytestMode_from_editor (w : World) :
  mode (store w) = WEMode.EDITOR ->
  enterPlaytestMode w =
    (controllerCompletion (store w),
     mkWorld (set_mode WEMode.PLAYTEST (store w))
       (archetypesCollectionReady w) (nextRef w)
       (log w ++ sendGameClientEvent "we:enterPlaytestMode" (Literal "")
              :: controllerCalls (store w) enterFullControl)).
Proof.
  intros Hm. unfold enterPlaytestMode, callInputController,
    controllerCompletion, controllerCalls. exec.
  rewrite Hm. simpl.
  destruct (inputController (store w)) as [ic|]; simpl.
  - rewrite app_two. reflexivity.
  - reflexivity.
Qed.

Lemma enterEditorMode_from_playtest (relative : bool) (w : World) :
  mode (store w) = WEMode.PLAYTEST ->
  enterEditorMode relative w =
    (controllerCompletion (store w),
     mkWorld (set_mode WEMode.EDITOR (store w))
       (archetypesCollectionReady w) (nextRef w)
       (log w ++ sendGameClientEvent "we:exitPlaytestMode"
                   (Literal (if relative then "true" else ""))
              :: controllerCalls (store w) exitFullControl)).
Proof.
  intros Hm. unfold enterEditorMode, callInputController,
    controllerCompletion, controllerCalls. exec.
  rewrite Hm. simpl.
  destruct (inputController (store w)) as [ic|]; simpl.
  - rewrite app_two. reflexivity.
  - reflexivity.
Qed.

Lemma enterPlaytestMode_in_playtest (w : World) :
  mode (store w) = WEMode.PLAYTEST -> enterPlaytestMode w = (Normal tt, w).
Proof. intros Hm. unfold enterPlaytestMode. exec. rewrite Hm. reflexivity. Qed.

Lemma enterEditorMode_in_editor (relative : bool) (w : World) :
  mode (store w) = WEMode.EDITOR -> enterEditorMode relative w = (Normal tt, w).
Proof. intros Hm. unfold enterEditorMode. exec. rewrite Hm. reflexivity. Qed.

(** C2. From EDITOR, [enterPlaytestMode] sends [we:enterPlaytestMode] to
    the game client, sets the mode to PLAYTEST and calls [enterFullControl]
    on the installed input controller, which is then in full control.  From
    PLAYTEST, [enterEditorMode] sends [we:exitPlaytestMode], with payload
    ['true'] exactly when [relative] is true, sets the mode to EDITOR and
    calls [exitFullControl] on the controller, which is then out of full
    control. *)
Theorem playtest_mode_toggles_full_control :
  forall (w : World) (relative : bool),
    (mode (store w) = WEMode.EDITOR ->
     let w' := snd (enterPlaytestMode w) in
     log w' = log w ++ sendGameClientEvent "we:enterPlaytestMode" (Literal "")
                    :: controllerCalls (store w) enterFullControl
     /\ mode (store w') = WEMode.PLAYTEST
     /\ forall ic, inputController (store w) = Some ic ->
          fst (enterPlaytestMode w) = Normal tt
          /\ emitted enterPlaytestMode w =
               [sendGameClientEvent "we:enterPlaytestMode" (Literal "");
                InputController_call (controllerRef ic) enterFullControl]
          /\ inputController (store w') = Some ic
          /\ fullControl (controllerRef ic) (log w') = true)
    /\ (mode (store w) = WEMode.PLAYTEST ->
        let w' := snd (enterEditorMode relative w) in
        log w' = log w ++ sendGameClientEvent "we:exitPlaytestMode"
                            (Literal (if relative then "true" else ""))
                       :: controllerCalls (store w) exitFullControl
        /\ (Literal (if relative then "true" else "") = Literal "true"
            <-> relative = true)
        /\ mode (store w') = WEMode.EDITOR
        /\ forall ic, inputController (store w) = Some ic ->
             fst (enterEditorMode relative w) = Normal tt
             /\ emitted (enterEditorMode relative) w =
                  [sendGameClientEvent "we:exitPlaytestMode"
                     (Literal (if relative then "true" else ""));
                   InputController_call (controllerRef ic) exitFullControl]
             /\ inputController (store w') = Some ic
             /\ fullControl (controllerRef ic) (log w') = false).
Proof.
  intros w relative. split; intros Hm.
  - cbv zeta. rewrite (enterPlaytestMode_from_editor w Hm). simpl.
    split; [reflexivity|]. split; [reflexivity|].
    intros ic Hic. unfold controllerCompletion, controllerCalls.
    rewrite Hic. split; [reflexivity|].
    split.
    + apply emitted_app. rewrite (enterPlaytestMode_from_editor w Hm).
      unfold controllerCalls. rewrite Hic. reflexivity.
    + split; [reflexivity|].
      rewrite fullControl_app. simpl. rewrite Nat.eqb_refl. reflexivity.
  - cbv zeta. rewrite (enterEditorMode_from_playtest relative w Hm). simpl.
    split; [reflexivity|].
    split; [destruct relative; split; congruence|].
    split; [reflexivity|].
    intros ic Hic. unfold controllerCompletion, controllerCalls.
    rewrite Hic. split; [reflexivity|].
    split.
    + apply emitted_app. rewrite (enterEditorMode_from_playtest relative w Hm).
      unfold controllerCalls. rewrite Hic. reflexivity.
    + split; [reflexivity|].
      rewrite fullControl_app. simpl. rewrite Nat.eqb_refl. reflexivity.
Qed.

(** ** Selection *)

Lemma updateSelection_run (sel : WESelection) (w : World) :
  updateSelection sel w =
    (Normal tt,
     mkWorld (set_selection sel (store w)) (archetypesCollectionReady w)
       (nextRef w) (log w ++ [selectionChanged_emit sel])).
Proof. reflexivity. Qed.

Lemma setEditorSelection_run (sel : WESelection) (w : World) :
  setEditorSelection sel w =
    (Normal tt,
     mkWorld (set_selection sel (store w)) (archetypesCollectionReady w)
       (nextRef w)
       (log w ++ [selectionChanged_emit sel;
                  sendGameClientEvent "we:selection"
                    (JSON_stringify (ofSelection sel))])).
Proof.
  unfold setEditorSelection, updateSelection. exec.
  rewrite app_two. reflexivity.
Qed.

(** C3. [setEditorSelection s] first stores [s] as the selection and emits
    [selectionChanged], then sends the game client a [we:selection] message
    whose payload is [JSON.stringify(s)]; [clearEditorSelection] is
    [setEditorSelection] applied to the selection of type NONE. *)
Theorem setEditorSelection_bridges_selection :
  forall (sel : WESelection) (w : World),
    let w1 := snd (updateSelection sel w) in
    selection (store w1) = sel
    /\ log w1 = log w ++ [selectionChanged_emit sel]
    /\ setEditorSelection sel w =
         call (sendGameClientEvent "we:selection"
                 (JSON_stringify (ofSelection sel))) w1
    /\ setEditorSelection sel w =
         (Normal tt,
          mkWorld (set_selection sel (store w)) (archetypesCollectionReady w)
            (nextRef w)
            (log w ++ [selectionChanged_emit sel;
                       sendGameClientEvent "we:selection"
                         (JSON_stringify (ofSelection sel))]))
    /\ clearEditorSelection w = setEditorSelection selectNone w
    /\ selectNone =
         {| type := WESelectionType.NONE; id := None; mapdata := None;
            entity := None |}.
Proof.
  intros sel w. cbv zeta. rewrite updateSelection_run. simpl.
  split; [reflexivity|]. split; [reflexivity|].
  split; [reflexivity|].
  split; [apply setEditorSelection_run|].
  split; reflexivity.
Qed.

(** ** Deleting the selected addition *)

Lemma on_additionDeleted_hit (deletedId : string) (w : World) :
  type (selection (store w)) = WESelectionType.ADDITION ->
  id (selection (store w)) = Some deletedId ->
  on_additionDeleted deletedId w = clearEditorSelection w.
Proof.
  intros Ht Hi. unfold on_additionDeleted. exec.
  rewrite Ht, Hi. simpl. rewrite String.eqb_refl. reflexivity.
Qed.

Lemma on_additionDeleted_miss (deletedId : string) (w : World) :
  ~ (type (selection (store w)) = WESelectionType.ADDITION
     /\ id (selection (store w)) = Some deletedId) ->
  on_additionDeleted deletedId w = (Normal tt, w).
Proof.
  intros H. unfold on_additionDeleted. exec.
  destruct (WESelectionType.eqb _ _) eqn:Et; simpl; [|reflexivity].
  destruct (strict_equals_opt _ _ _) eqn:Ei; simpl; [|reflexivity].
  exfalso. apply H.
  apply WESelectionType_eqb_eq in Et.
  apply strict_equals_opt_string in Ei. auto.
Qed.

(** C4. Once the [additionDeleted] listener has run for an id, the
    selection is not the addition with that id.  If the selection was that
    addition, the listener ran [clearEditorSelection]: the selection is now
    of type NONE and the game client was told.  For any other selection the
    listener changed nothing and sent nothing. *)
Theorem additionDeleted_clears_matching_selection :
  forall (deletedId : string) (w : World),
    let w' := snd (bindEvents (additionDeleted deletedId) w) in
    ~ (type (selection (store w')) = WESelectionType.ADDITION
       /\ id (selection (store w')) = Some deletedId)
    /\ (type (selection (store w)) = WESelectionType.ADDITION
        /\ id (selection (store w)) = Some deletedId ->
        bindEvents (additionDeleted deletedId) w = clearEditorSelection w
        /\ selection (store w') = selectNone
        /\ log w' = log w ++ [selectionChanged_emit selectNone;
                              sendGameClientEvent "we:selection"
                                (JSON_stringify (ofSelection selectNone))])
    /\ (~ (type (selection (store w)) = WESelectionType.ADDITION
           /\ id (selection (store w)) = Some deletedId) ->
        bindEvents (additionDeleted deletedId) w = (Normal tt, w)).
Proof.
  intros deletedId w. cbv zeta. simpl bindEvents.
  assert (Hhit :
    type (selection (store w)) = WESelectionType.ADDITION
    /\ id (selection (store w)) = Some deletedId ->
    on_additionDeleted deletedId w = clearEditorSelection w
    /\ selection (store (snd (on_additionDeleted deletedId w))) = selectNone
    /\ log (snd (on_additionDeleted deletedId w)) =
         log w ++ [selectionChanged_emit selectNone;
                   sendGameClientEvent "we:selection"
                     (JSON_stringify (ofSelection selectNone))]).
  { intros [Ht Hi]. rewrite (on_additionDeleted_hit deletedId w Ht Hi).
    unfold clearEditorSelection. rewrite setEditorSelection_run.
    repeat split. }
  split; [|split; [exact Hhit | apply on_additionDeleted_miss]].
  intros [Ht' Hi'].
  destruct (WESelectionType.eqb (type (selection (store w)))
              WESelectionType.ADDITION) eqn:Et.
  - destruct (strict_equals_opt String.eqb (id (selection (store w)))
                deletedId) eqn:Ei.
    + apply WESelectionType_eqb_eq in Et.
      apply strict_equals_opt_string in Ei.
      destruct (Hhit (conj Et Ei)) as [_ [Hsel _]].
      rewrite Hsel in Ht'. discriminate.
    + rewrite on_additionDeleted_miss in Hi'.
      * simpl in Hi'. apply strict_equals_opt_string in Hi'. congruence.
      * intros [_ Hi]. apply strict_equals_opt_string in Hi. congruence.
  - rewrite on_additionDeleted_miss in Ht'.
    + simpl in Ht'. apply WESelectionType_eqb_eq in Ht'. congruence.
    + intros [Ht _]. apply WESelectionType_eqb_eq in Ht. congruence.
Qed.

(** ** Opening and closing a map *)

(** C5. [openMap entry] sets [map] to null, records [entry], resets the
    edit history, sends the start request with [entry.path] over the API
    transport and switches the shell to WORLD_EDITOR.  [closeMap] sets
    [ready] to false unless the WORLD_EDITOR_UI_ONLY toggle is on, sets
    [map] and the entry to null, sends the stop message and switches the
    shell to THEIA. *)
Theorem map_lifecycle_goes_through_api :
  forall (uiOnly : bool) (entry : FilesystemEntry) (w : World),
    openMap entry w =
      (Normal tt,
       mkWorld (set_mapEntry (Some entry) (set_map None (store w)))
         (archetypesCollectionReady w) (nextRef w)
         (log w ++ [WEHistory_reset;
                    sendApiMessage worldEditorApi.start
                      (Some (WorldEditorStartRequest (path entry)));
                    setPersonality ShellPersonality.WORLD_EDITOR]))
    /\ map (store (snd (openMap entry w))) = None
    /\ mapEntry (store (snd (openMap entry w))) = Some entry
    /\ closeMap uiOnly w =
         (Normal tt,
          mkWorld
            (set_mapEntry None
               (set_map None
                  (if uiOnly then store w else set_ready false (store w))))
            (archetypesCollectionReady w) (nextRef w)
            (log w ++ [sendApiMessage worldEditorApi.stop None;
                       setPersonality ShellPersonality.THEIA]))
    /\ ready (store (snd (closeMap uiOnly w))) =
         (if uiOnly then ready (store w) else false)
    /\ map (store (snd (closeMap uiOnly w))) = None
    /\ mapEntry (store (snd (closeMap uiOnly w))) = None.
Proof.
  intros uiOnly entry w.
  assert (Ho : openMap entry w =
      (Normal tt,
       mkWorld (set_mapEntry (Some entry) (set_map None (store w)))
         (archetypesCollectionReady w) (nextRef w)
         (log w ++ [WEHistory_reset;
                    sendApiMessage worldEditorApi.start
                      (Some (WorldEditorStartRequest (path entry)));
                    setPersonality ShellPersonality.WORLD_EDITOR]))).
  { unfold openMap. exec. rewrite app_three. reflexivity. }
  assert (Hc : closeMap uiOnly w =
         (Normal tt,
          mkWorld
            (set_mapEntry None
               (set_map None
                  (if uiOnly then store w else set_ready false (store w))))
            (archetypesCollectionReady w) (nextRef w)
            (log w ++ [sendApiMessage worldEditorApi.stop None;
                       setPersonality ShellPersonality.THEIA]))).
  { unfold closeMap. exec. destruct uiOnly; simpl;
      rewrite app_two; reflexivity. }
  rewrite Ho, Hc. simpl.
  repeat split. destruct uiOnly; reflexivity.
Qed.

(** ** Allocation *)

Ltac unfold_methods :=
  unfold run, bindEvents, bindCommands, openIntro, closeIntro,
    enterPlaytestMode, enterEditorMode, enterHotkeyConfigurationMode,
    exitHotkeyConfigurationMode, setCam, focusInView, openMap, closeMap,
    enableTranslation, enableRotation, enableScaling, toggleEditorLocal,
    setEditorSelect, clearEditorSelection, setEditorSelection,
    updateSelection, createInputController, destroyInputController,
    on_ready, on_mapLoaded, on_additionDeleted, setSelectedAdditionOnGround,
    updateEditorControls, callInputController, callMapIfAny.

Ltac split_cases :=
  repeat match goal with
    | |- context [if ?b then _ else _] => destruct b eqn:?; simpl
    | |- context [match ?x with Some _ => _ | None => _ end] =>
        destruct x eqn:?; simpl
    end.

Lemma initialWorld_wellAllocated (uiOnly seen archetypesReady : bool) :
  wellAllocated (initialWorld uiOnly seen archetypesReady).
Proof.
  unfold wellAllocated, initialWorld, constructor.
  destruct uiOnly; simpl; split; intros x H; discriminate.
Qed.

Lemma run_wellAllocated (uiOnly : bool) (e : Entry) (w : World) :
  wellAllocated w -> wellAllocated (snd (run uiOnly e w)).
Proof.
  unfold wellAllocated. intros [Hic Hms].
  destruct e as [ | | | | | | | | | | | | | | | | | | | ev | c ];
    [ .. | destruct ev | destruct c ];
    unfold_methods; exec; split_cases;
    (split; intros x Hx; simpl in *;
     first [ discriminate
           | injection Hx as <-; simpl; lia
           | apply Hic; congruence
           | apply Hms; congruence
           | apply Nat.lt_lt_succ_r; first [apply Hic | apply Hms];
             congruence ]).
Qed.

Theorem reachable_wellAllocated (uiOnly : bool) (w : World) :
  reachable uiOnly w -> wellAllocated w.
Proof.
  induction 1 as [seen archetypesReady | w e _ IH | w b _ IH].
  - apply initialWorld_wellAllocated.
  - apply run_wellAllocated, IH.
  - exact IH.
Qed.

(** ** Events of the host *)

Lemma on_ready_run (w : World) :
  on_ready w =
    (Normal tt,
     mkWorld (set_ready true (store w)) (archetypesCollectionReady w)
       (nextRef w)
       (if archetypesCollectionReady w then log w
        else log w ++ [refreshArchetypesCollection])).
Proof.
  unfold on_ready. exec.
  destruct (archetypesCollectionReady w); reflexivity.
Qed.

Lemma on_mapLoaded_run (m : WEMap) (w : World) :
  on_mapLoaded m w =
    (Normal tt,
     mkWorld (set_map (Some (mkMapState (nextRef w) m)) (store w))
       (archetypesCollectionReady w) (S (nextRef w))
       (log w ++ [new_WEMapState (mkMapState (nextRef w) m)])).
Proof. reflexivity. Qed.

(** C6. On the [we:ready] window event the store becomes ready, and asks
    [GameState] to refresh the archetypes collection exactly when that
    collection is not ready yet.  On the [mapLoaded] API message the [map]
    field is replaced by a newly allocated map state built from the map
    received, whatever it held before. *)
Theorem store_reacts_to_host_events :
  forall (m : WEMap) (w : World),
    let wr := snd (bindEvents window_ready w) in
    let wm := snd (bindEvents (api_mapLoaded m) w) in
    fst (bindEvents window_ready w) = Normal tt
    /\ ready (store wr) = true
    /\ emitted (bindEvents window_ready) w =
         (if archetypesCollectionReady w then []
          else [refreshArchetypesCollection])
    /\ (In refreshArchetypesCollection (emitted (bindEvents window_ready) w)
        <-> archetypesCollectionReady w = false)
    /\ fst (bindEvents (api_mapLoaded m) w) = Normal tt
    /\ map (store wm) = Some (mkMapState (nextRef w) m)
    /\ emitted (bindEvents (api_mapLoaded m)) w =
         [new_WEMapState (mkMapState (nextRef w) m)]
    /\ nextRef wm = S (nextRef w)
    /\ (wellAllocated w -> map (store wm) <> map (store w)).
Proof.
  intros m w. cbv zeta. simpl bindEvents.
  assert (Hr : emitted on_ready w =
                 if archetypesCollectionReady w then []
                 else [refreshArchetypesCollection]).
  { unfold emitted. rewrite on_ready_run. simpl.
    destruct (archetypesCollectionReady w).
    - apply skipn_all.
    - rewrite skipn_app, skipn_all, Nat.sub_diag. reflexivity. }
  rewrite Hr, on_ready_run, on_mapLoaded_run. simpl.
  split; [reflexivity|]. split; [reflexivity|]. split; [reflexivity|].
  split.
  { destruct (archetypesCollectionReady w); simpl; split; intros H;
      try discriminate; try tauto. }
  split; [reflexivity|]. split; [reflexivity|].
  split.
  { apply emitted_app. rewrite on_mapLoaded_run. reflexivity. }
  split; [reflexivity|].
  intros [_ Hms] Heq. symmetry in Heq. apply Hms in Heq. simpl in Heq. lia.
Qed.

(** ** Payloads sent to the game client *)

Lemma emitted_self {A : Type} (a : Action A) (w : World) :
  log (snd (a w)) = log w -> emitted a w = [].
Proof. intros H. unfold emitted. rewrite H. apply skipn_all. Qed.

Ltac compute_emitted :=
  unfold emitted; simpl;
  rewrite <- ?app_assoc;
  rewrite ?skipn_app, ?skipn_all, ?Nat.sub_diag; simpl.

Lemma setCam_run (cam : list number) (w : World) :
  setCam cam w =
    (Normal tt,
     mkWorld (store w) (archetypesCollectionReady w) (nextRef w)
       (log w ++ [sendGameClientEvent "we:setCam"
                    (JSON_stringify (ofCam cam))])).
Proof. reflexivity. Qed.

Lemma focusInView_run (cam : WECam) (lookAt : number * number * number)
    (w : World) :
  focusInView cam lookAt w =
    (Normal tt,
     mkWorld (store w) (archetypesCollectionReady w) (nextRef w)
       (log w ++ [sendGameClientEvent "we:focusInView"
                    (JSON_stringify (ofFocus cam lookAt))])).
Proof. reflexivity. Qed.

(** The game-client events of one entry point, by case on the entry. *)
Lemma run_game_client_events (uiOnly : bool) (e : Entry) (w : World)
    (eventName : string) (payload : Payload) :
  In (sendGameClientEvent eventName payload) (emitted (run uiOnly e) w) ->
  (eventName = "we:enterPlaytestMode" /\ payload = Literal "")
  \/ (eventName = "we:exitPlaytestMode"
      /\ (payload = Literal "" \/ payload = Literal "true"))
  \/ (exists cam, e = do_setCam cam /\ eventName = "we:setCam"
                  /\ payload = JSON_stringify (ofCam cam))
  \/ (exists cam lookAt, e = do_focusInView cam lookAt
                         /\ eventName = "we:focusInView"
                         /\ payload = JSON_stringify (ofFocus cam lookAt))
  \/ (exists sel, eventName = "we:selection"
                  /\ payload = JSON_stringify (ofSelection sel)
                  /\ selection (store (snd (run uiOnly e w))) = sel).
Proof.
  destruct e as [ | | | r | | | cam | cam lookAt | | | | | | | | sel | | |
                  | ev | c ];
    [ .. | destruct ev | destruct c ];
    unfold emitted; unfold_methods; exec; split_cases;
    rewrite <- ?app_assoc;
    rewrite ?skipn_app, ?skipn_all, ?Nat.sub_diag; simpl;
    intros H;
    repeat match goal with
      | H : _ \/ _ |- _ => destruct H
      | H : False |- _ => contradiction
      | H : _ = sendGameClientEvent _ _ |- _ =>
          first [ discriminate H | injection H as <- <- ]
      end.
  all: try (left; split; reflexivity).
  all: try (right; left; split; [reflexivity | destruct r; auto]).
  all: try (right; right; left; eexists; repeat split; reflexivity).
  all: try (right; right; right; left; do 2 eexists; repeat split;
            reflexivity).
  all: try (right; right; right; right; eexists; repeat split; reflexivity).
Qed.




(** ** The camera *)

(** C8, as amended.  The store holds no camera state: [setCam] and
    [focusInView] complete normally, leave every field of the store as it
    was, and only send the serialized camera to the game client; what they
    send does not depend on the store. *)
Theorem camera_operations_only_forward :
  forall (cam : WECam) (lookAt : number * number * number) (w w2 : World),
    setCam cam w =
      (Normal tt,
       mkWorld (store w) (archetypesCollectionReady w) (nextRef w)
         (log w ++ [sendGameClientEvent "we:setCam"
                      (JSON_stringify (ofCam cam))]))
    /\ focusInView cam lookAt w =
         (Normal tt,
          mkWorld (store w) (archetypesCollectionReady w) (nextRef w)
            (log w ++ [sendGameClientEvent "we:focusInView"
                         (JSON_stringify (ofFocus cam lookAt))]))
    /\ store (snd (setCam cam w)) = store w
    /\ store (snd (focusInView cam lookAt w)) = store w
    /\ emitted (setCam cam) w = emitted (setCam cam) w2
    /\ emitted (focusInView cam lookAt) w = emitted (focusInView cam lookAt) w2.
Proof.
  intros cam lookAt w w2.
  split; [reflexivity|]. split; [reflexivity|].
  split; [reflexivity|]. split; [reflexivity|].
  split.
  - rewrite (emitted_app (setCam cam) w _ eq_refl).
    rewrite (emitted_app (setCam cam) w2 _ eq_refl). reflexivity.
  - rewrite (emitted_app (focusInView cam lookAt) w _ eq_refl).
    rewrite (emitted_app (focusInView cam lookAt) w2 _ eq_refl). reflexivity.
Qed.

(** C8, as stated, fails: no call of [setCam] or [focusInView] writes a
    field of the store, and none sends something that depends on the store
    it ran in. *)
Lemma camera_operations_use_no_store_state :
  ~ ((exists cam w, store (snd (setCam cam w)) <> store w)
     \/ (exists cam lookAt w,
            store (snd (focusInView cam lookAt w)) <> store w)
     \/ (exists cam w w2,
            emitted (setCam cam) w <> emitted (setCam cam) w2)
     \/ (exists cam lookAt w w2,
            emitted (focusInView cam lookAt) w
            <> emitted (focusInView cam lookAt) w2)).
Proof.
  intros [[cam [w H]] | [[cam [lookAt [w H]]] | [[cam [w [w2 H]]]
         | [cam [lookAt [w [w2 H]]]]]]]; apply H.
  - reflexivity.
  - reflexivity.
  - rewrite (emitted_app (setCam cam) w _ eq_refl).
    rewrite (emitted_app (setCam cam) w2 _ eq_refl). reflexivity.
  - rewrite (emitted_app (focusInView cam lookAt) w _ eq_refl).
    rewrite (emitted_app (focusInView cam lookAt) w2 _ eq_refl). reflexivity.
Qed.

(** ** Entering a mode twice *)

Lemma enterPlaytestMode_twice (w : World) :
  (enterPlaytestMode ;; enterPlaytestMode) w = enterPlaytestMode w.
Proof.
  unfold bind at 1.
  destruct (mode (store w)) eqn:Hm.
  - rewrite (enterPlaytestMode_from_editor w Hm).
    unfold controllerCompletion.
    destruct (inputController (store w)) as [ic|]; [|reflexivity].
    apply enterPlaytestMode_in_playtest. reflexivity.
  - rewrite (enterPlaytestMode_in_playtest w Hm).
    apply enterPlaytestMode_in_playtest, Hm.
Qed.

Lemma enterEditorMode_twice (relative relative' : bool) (w : World) :
  (enterEditorMode relative ;; enterEditorMode relative') w
  = enterEditorMode relative w.
Proof.
  unfold bind at 1.
  destruct (mode (store w)) eqn:Hm.
  - rewrite (enterEditorMode_in_editor relative w Hm).
    apply enterEditorMode_in_editor, Hm.
  - rewrite (enterEditorMode_from_playtest relative w Hm).
    unfold controllerCompletion.
    destruct (inputController (store w)) as [ic|]; [|reflexivity].
    apply enterEditorMode_in_editor. reflexivity.
Qed.

Lemma enterPlaytestMode_events (w : World) :
  (List.length (filter isGameClientEvent (emitted enterPlaytestMode w))
   <= 1)%nat.
Proof.
  destruct (mode (store w)) eqn:Hm.
  - rewrite (emitted_app enterPlaytestMode w
               (sendGameClientEvent "we:enterPlaytestMode" (Literal "")
                  :: controllerCalls (store w) enterFullControl)).
    + unfold controllerCalls.
      destruct (inputController (store w)); simpl; lia.
    + rewrite (enterPlaytestMode_from_editor w Hm). reflexivity.
  - rewrite emitted_self.
    + simpl; lia.
    + rewrite (enterPlaytestMode_in_playtest w Hm). reflexivity.
Qed.

Lemma enterEditorMode_events (relative : bool) (w : World) :
  (List.length
     (filter isGameClientEvent (emitted (enterEditorMode relative) w))
   <= 1)%nat.
Proof.
  destruct (mode (store w)) eqn:Hm.
  - rewrite emitted_self.
    + simpl; lia.
    + rewrite (enterEditorMode_in_editor relative w Hm). reflexivity.
  - rewrite (emitted_app (enterEditorMode relative) w
               (sendGameClientEvent "we:exitPlaytestMode"
                  (Literal (if relative then "true" else ""))
                  :: controllerCalls (store w) exitFullControl)).
    + unfold controllerCalls.
      destruct (inputController (store w)); simpl; lia.
    + rewrite (enterEditorMode_from_playtest relative w Hm). reflexivity.
Qed.

(** C9. [enterPlaytestMode] in PLAYTEST and [enterEditorMode] in EDITOR
    change nothing and send nothing.  So either of them called twice in a
    row does what one call does, and the two calls together send the game
    client at most one mode event. *)
Theorem mode_entry_is_idempotent :
  forall (w : World) (relative relative' : bool),
    (mode (store w) = WEMode.PLAYTEST ->
     enterPlaytestMode w = (Normal tt, w)
     /\ emitted enterPlaytestMode w = [])
    /\ (mode (store w) = WEMode.EDITOR ->
        enterEditorMode relative w = (Normal tt, w)
        /\ emitted (enterEditorMode relative) w = [])
    /\ (enterPlaytestMode ;; enterPlaytestMode) w = enterPlaytestMode w
    /\ (enterEditorMode relative ;; enterEditorMode relative') w
       = enterEditorMode relative w
    /\ (List.length
          (filter isGameClientEvent
             (emitted (enterPlaytestMode ;; enterPlaytestMode) w)) <= 1)%nat
    /\ (List.length
          (filter isGameClientEvent
             (emitted (enterEditorMode relative ;; enterEditorMode relative')
                w)) <= 1)%nat.
Proof.
  intros w relative relative'.
  split.
  { intros Hm. rewrite (enterPlaytestMode_in_playtest w Hm).
    split; [reflexivity|]. apply emitted_self.
    rewrite (enterPlaytestMode_in_playtest w Hm). reflexivity. }
  split.
  { intros Hm. rewrite (enterEditorMode_in_editor relative w Hm).
    split; [reflexivity|]. apply emitted_self.
    rewrite (enterEditorMode_in_editor relative w Hm). reflexivity. }
  split; [apply enterPlaytestMode_twice|].
  split; [apply enterEditorMode_twice|].
  split.
  - unfold emitted at 1. rewrite enterPlaytestMode_twice.
    apply enterPlaytestMode_events.
  - unfold emitted at 1. rewrite enterEditorMode_twice.
    apply enterEditorMode_events.
Qed.

(** ** Destroying the input controller *)

Lemma destroyInputController_run (w : World) :
  destroyInputController w =
    (Normal tt,
     mkWorld (set_inputController None (set_selection selectNone (store w)))
       (archetypesCollectionReady w) (nextRef w)
       (log w ++ selectionChanged_emit selectNone
              :: controllerCalls (store w) destroy)).
Proof.
  unfold destroyInputController, updateSelection, controllerCalls. exec.
  destruct w as [s a n l]. destruct s as [ic r m es em el sel mp me i f].
  simpl. destruct ic as [ic|]; simpl.
  - rewrite app_two. reflexivity.
  - reflexivity.
Qed.

Lemma createInputController_run (c : Container) (w : World) :
  createInputController c w =
    (Normal tt,
     mkWorld (set_inputController (Some (mkInputController (nextRef w) c))
                (store w))
       (archetypesCollectionReady w) (S (nextRef w))
       (log w ++ [new_InputController (mkInputController (nextRef w) c)
                    cb_setEditorSelect;
                  InputController_call (nextRef w)
                    (onEscapeFullControl cb_enterEditorMode);
                  InputController_call (nextRef w)
                    (onCameraMovementBaseMultiplierChange
                       cb_cameraSpeedMessage)])).
Proof.
  unfold createInputController, callInputController. exec.
  rewrite app_three. reflexivity.
Qed.

(** C10. [destroyInputController] sets the selection to the one of type
    NONE and emits [selectionChanged], but sends the game client nothing
    (where [clearEditorSelection] sends [we:selection]).  It leaves [mode],
    [editorMode], [editorLocal], [editorSelect], [map] and [ready] as they
    were.  The controller that was installed, if any, has had [destroy]
    called and is no longer held; a following [createInputController]
    installs a newly allocated controller. *)
Theorem destroyInputController_resets_locally :
  forall (c : Container) (w : World),
    let w' := snd (destroyInputController w) in
    let w'' := snd (createInputController c w') in
    fst (destroyInputController w) = Normal tt
    /\ selection (store w') = selectNone
    /\ emitted destroyInputController w =
         selectionChanged_emit selectNone
           :: controllerCalls (store w) destroy
    /\ existsb isGameClientEvent (emitted destroyInputController w) = false
    /\ In (sendGameClientEvent "we:selection"
             (JSON_stringify (ofSelection selectNone)))
          (emitted clearEditorSelection w)
    /\ (mode (store w') = mode (store w)
        /\ editorMode (store w') = editorMode (store w)
        /\ editorLocal (store w') = editorLocal (store w)
        /\ editorSelect (store w') = editorSelect (store w)
        /\ map (store w') = map (store w)
        /\ ready (store w') = ready (store w))
    /\ inputController (store w') = None
    /\ (forall ic, inputController (store w) = Some ic ->
          In (InputController_call (controllerRef ic) destroy)
             (emitted destroyInputController w)
          /\ fullControl (controllerRef ic) (log w') = false)
    /\ fst (createInputController c w') = Normal tt
    /\ inputController (store w'') = Some (mkInputController (nextRef w) c)
    /\ In (new_InputController (mkInputController (nextRef w) c)
             cb_setEditorSelect)
          (emitted (createInputController c) w')
    /\ (wellAllocated w ->
        inputController (store w'') <> inputController (store w)).
Proof.
  intros c w. cbv zeta.
  assert (He : emitted destroyInputController w =
                 selectionChanged_emit selectNone
                   :: controllerCalls (store w) destroy).
  { apply emitted_app. rewrite destroyInputController_run. reflexivity. }
  rewrite He, destroyInputController_run. cbn [fst snd].
  rewrite createInputController_run. simpl.
  split; [reflexivity|]. split; [reflexivity|]. split; [reflexivity|].
  split.
  { unfold controllerCalls. destruct (inputController (store w));
      reflexivity. }
  split.
  { unfold clearEditorSelection.
    rewrite (emitted_app (setEditorSelection selectNone) w
               [selectionChanged_emit selectNone;
                sendGameClientEvent "we:selection"
                  (JSON_stringify (ofSelection selectNone))]).
    - simpl. auto.
    - rewrite setEditorSelection_run. reflexivity. }
  split; [repeat split|].
  split; [reflexivity|].
  split.
  { intros ic Hic. unfold controllerCalls. rewrite Hic. split.
    - simpl. auto.
    - rewrite fullControl_app. simpl. rewrite Nat.eqb_refl. reflexivity. }
  split; [reflexivity|]. split; [reflexivity|].
  split.
  { rewrite (emitted_app (createInputController c) _
               [new_InputController (mkInputController (nextRef w) c)
                  cb_setEditorSelect;
                InputController_call (nextRef w)
                  (onEscapeFullControl cb_enterEditorMode);
                InputController_call (nextRef w)
                  (onCameraMovementBaseMultiplierChange
                     cb_cameraSpeedMessage)]).
    - simpl. auto.
    - rewrite createInputController_run. reflexivity. }
  intros [Hic _] Heq. symmetry in Heq. apply Hic in Heq. simpl in Heq. lia.
Qed.

(** * The properties at concrete stores *)

Lemma selection_predicates_follow_tag_witness :
  isPatchSelected "7" " 9px" patchSelected = true
  /\ isPatchSelected "seven" "9" patchSelected = false
  /\ type (selection strayNoneSelected) = WESelectionType.NONE
  /\ isAdditionSelected "car" strayNoneSelected = false
  /\ isPatchSelected "7" "9" strayNoneSelected = false.
Proof.
  destruct (selection_predicates_follow_tag patchSelected "car" "7" " 9px")
    as (_ & _ & Hpatch & _ & _).
  destruct (selection_predicates_follow_tag patchSelected "car" "seven" "9")
    as (_ & _ & _ & Hnan & _).
  destruct (selection_predicates_follow_tag strayNoneSelected "car" "7" "9")
    as (_ & _ & _ & _ & Hnone).
  split.
  { apply Hpatch. split; [reflexivity|].
    exists (number_of_Z 7 false), (number_of_Z 9 false).
    repeat split. }
  split; [apply Hnan; left; reflexivity|].
  split; [reflexivity|].
  apply Hnone. reflexivity.
Defined.

Lemma playtest_mode_toggles_full_control_witness :
  mode (store mountedWorld) = WEMode.EDITOR
  /\ mode (store (snd (enterPlaytestMode mountedWorld))) = WEMode.PLAYTEST
  /\ fullControl 0%nat (log (snd (enterPlaytestMode mountedWorld))) = true
  /\ mode (store playingWorld) = WEMode.PLAYTEST
  /\ mode (store (snd (enterEditorMode true playingWorld))) = WEMode.EDITOR
  /\ fullControl 0%nat (log (snd (enterEditorMode true playingWorld))) = false.
Proof.
  destruct (playtest_mode_toggles_full_control mountedWorld true)
    as [Hplay _].
  destruct (playtest_mode_toggles_full_control playingWorld true)
    as [_ Hedit].
  destruct (Hplay eq_refl) as (_ & Hmode & Hic).
  destruct (Hic (mkInputController 0%nat (ContainerRef 0)) eq_refl)
    as (_ & _ & _ & Hfull).
  destruct (Hedit eq_refl) as (_ & _ & Hmode' & Hic').
  destruct (Hic' (mkInputController 0%nat (ContainerRef 0)) eq_refl)
    as (_ & _ & _ & Hfull').
  split; [reflexivity|]. split; [exact Hmode|]. split; [exact Hfull|].
  split; [reflexivity|]. split; [exact Hmode'|]. exact Hfull'.
Defined.

Lemma additionDeleted_clears_matching_selection_witness :
  selection (store carSelectedWorld) = selectAddition "car"
  /\ selection (store (snd (bindEvents (additionDeleted "car")
                              carSelectedWorld))) = selectNone
  /\ bindEvents (additionDeleted "bus") carSelectedWorld
     = (Normal tt, carSelectedWorld).
Proof.
  destruct (additionDeleted_clears_matching_selection "car" carSelectedWorld)
    as (_ & Hhit & _).
  destruct (additionDeleted_clears_matching_selection "bus" carSelectedWorld)
    as (_ & _ & Hmiss).
  split; [reflexivity|].
  split.
  - destruct (Hhit (conj eq_refl eq_refl)) as (_ & Hsel & _). exact Hsel.
  - apply Hmiss. intros [_ H]. vm_compute in H. discriminate H.
Defined.

Lemma store_reacts_to_host_events_witness :
  wellAllocated mountedWorld
  /\ map (store (snd (bindEvents (api_mapLoaded (MapDocument "{}"))
                        mountedWorld)))
     <> map (store mountedWorld)
  /\ In refreshArchetypesCollection
        (emitted (bindEvents window_ready) mountedWorld).
Proof.
  assert (Hw : wellAllocated mountedWorld).
  { split; intros x H; vm_compute in H.
    - injection H as <-. vm_compute. lia.
    - discriminate H. }
  destruct (store_reacts_to_host_events (MapDocument "{}") mountedWorld)
    as (_ & _ & _ & Hrefresh & _ & _ & _ & _ & Hfresh).
  split; [exact Hw|].
  split; [exact (Hfresh Hw)|].
  apply Hrefresh. reflexivity.
Defined.


Lemma mode_entry_is_idempotent_witness :
  mode (store playingWorld) = WEMode.PLAYTEST
  /\ enterPlaytestMode playingWorld = (Normal tt, playingWorld)
  /\ mode (store mountedWorld) = WEMode.EDITOR
  /\ enterEditorMode true mountedWorld = (Normal tt, mountedWorld).
Proof.
  destruct (mode_entry_is_idempotent playingWorld true true)
    as (Hplay & _).
  destruct (mode_entry_is_idempotent mountedWorld true true)
    as (_ & Hedit & _).
  split; [reflexivity|].
  split; [exact (proj1 (Hplay eq_refl))|].
  split; [reflexivity|].
  exact (proj1 (Hedit eq_refl)).
Defined.

Lemma destroyInputController_resets_locally_witness :
  inputController (store mountedWorld)
  = Some (mkInputController 0%nat (ContainerRef 0))
  /\ inputController (store (snd (destroyInputController mountedWorld)))
     = None
  /\ fullControl 0%nat (log (snd (destroyInputController mountedWorld))) = false
  /\ inputController
       (store (snd (createInputController (ContainerRef 1)
                      (snd (destroyInputController mountedWorld)))))
     <> inputController (store mountedWorld).
Proof.
  destruct (destroyInputController_resets_locally (ContainerRef 1)
              mountedWorld)
    as (_ & _ & _ & _ & _ & _ & Hnone & Hdestroyed & _ & _ & _ & Hfresh).
  split; [reflexivity|].
  split; [exact Hnone|].
  split.
  - exact (proj2 (Hdestroyed (mkInputController 0%nat (ContainerRef 0)) eq_refl)).
  - apply Hfresh. split; intros x H; vm_compute in H.
    + injection H as <-. vm_compute. lia.
    + discriminate H.
Defined.

(** * Further properties of the store *)

(** ** The map name *)

Example String_replace_first_only :
  String_replace "a.fxworld.fxworld" ".fxworld" "" = "a.fxworld".
Proof. reflexivity. Qed.

Example cameraSpeedMessage_fraction :
  cameraSpeedMessage oneAndHalf = "Camera speed: 150%".
Proof. reflexivity. Qed.

Lemma stripPrefix_Some (pat s rest : string) :
  stripPrefix pat s = Some rest <-> s = (pat ++ rest)%string.
Proof.
  revert s. induction pat as [|a pat IH]; intros s; simpl.
  - split; congruence.
  - destruct s as [|b s].
    + split; discriminate.
    + destruct (Ascii.eqb_spec a b) as [->|Hab].
      * rewrite IH. split; congruence.
      * split; [discriminate | congruence].
Qed.

(** Where [String_replace] cuts: at the first occurrence of the pattern,
    and nowhere when the pattern does not occur. *)
Lemma String_replace_spec (s pat rep : string) :
  (exists before after,
      s = (before ++ pat ++ after)%string
      /\ String_replace s pat rep = (before ++ rep ++ after)%string
      /\ forall before' after',
           s = (before' ++ pat ++ after')%string ->
           (String.length before <= String.length before')%nat)
  \/ (String_replace s pat rep = s
      /\ forall before after, s <> (before ++ pat ++ after)%string).
Proof.
  induction s as [|c s IH]; simpl.
  - destruct (stripPrefix pat "") as [rest|] eqn:E.
    + left. exists "", rest. apply stripPrefix_Some in E.
      split; [exact E|]. split; [reflexivity|]. intros; simpl; lia.
    + right. split; [reflexivity|]. intros before after H.
      destruct before; [|discriminate]. simpl in H.
      apply stripPrefix_Some in H. congruence.
  - destruct (stripPrefix pat (String c s)) as [rest|] eqn:E.
    + left. exists "", rest. apply stripPrefix_Some in E.
      split; [exact E|]. split; [reflexivity|]. intros; simpl; lia.
    + destruct IH as [(before & after & Hs & Hr & Hmin) | (Hr & Hno)].
      * left. exists (String c before), after. simpl.
        split; [congruence|]. split; [congruence|].
        intros before' after' H. destruct before' as [|c' before'].
        -- simpl in H. apply stripPrefix_Some in H. congruence.
        -- simpl in H. injection H as _ H. apply Hmin in H. simpl. lia.
      * right. split; [congruence|]. intros before after H.
        destruct before as [|c' before].
        -- simpl in H. apply stripPrefix_Some in H. congruence.
        -- simpl in H. injection H as _ H. exact (Hno _ _ H).
Qed.

(** X1. [mapName] is empty while no map entry is recorded.  With an entry,
    it is the entry's name with the first occurrence of the file extension
    cut out, wherever that occurrence is, and the whole name when the
    extension does not occur in it. *)
Theorem mapName_cuts_first_extension :
  forall (ext : string) (s : WEState),
    (mapEntry s = None -> mapName ext s = "")
    /\ (forall e, mapEntry s = Some e ->
          (exists before after,
              name e = (before ++ ext ++ after)%string
              /\ mapName ext s = (before ++ after)%string
              /\ forall before' after',
                   name e = (before' ++ ext ++ after')%string ->
                   (String.length before <= String.length before')%nat)
          \/ (mapName ext s = name e
              /\ forall before after,
                   name e <> (before ++ ext ++ after)%string)).
Proof.
  intros ext s. unfold mapName. split.
  - intros ->. reflexivity.
  - intros e ->. apply (String_replace_spec (name e) ext "").
Qed.

(** ** The intro *)





(** ** Readiness *)

Lemma run_keeps_ready_uiOnly (e : Entry) (w : World) :
  ready (store w) = true -> ready (store (snd (run true e w))) = true.
Proof.
  intros Hr.
  destruct e as [ | | | | | | | | | | | | | | | | | | | ev | c ];
    [ .. | destruct ev | destruct c ];
    unfold_methods; exec; split_cases;
    first [ exact Hr | reflexivity ].
Qed.

Lemma run_ready_source (uiOnly : bool) (e : Entry) (w : World) :
  ready (store (snd (run uiOnly e w))) = true ->
  ready (store w) = true \/ e = do_event window_ready.
Proof.
  destruct e as [ | | | | | | | | | | | | | | | | | | | ev | c ];
    [ .. | destruct ev | destruct c ];
    unfold_methods; exec; split_cases; intros H;
    first [ left; exact H | right; reflexivity | discriminate H ].
Qed.

(** X3. Under the WORLD_EDITOR_UI_ONLY toggle the store is ready from
    construction on and no sequence of entry points makes it unready.
    Whatever the toggle, the only entry point that turns an unready store
    ready is the [we:ready] window event. *)
Theorem ready_under_ui_only :
  forall (uiOnly : bool) (e : Entry) (w : World),
    (reachable true w -> ready (store w) = true)
    /\ (ready (store (snd (run uiOnly e w))) = true ->
        ready (store w) = true \/ e = do_event window_ready).
Proof.
  intros uiOnly e w. split; [|apply run_ready_source].
  induction 1 as [seen archetypesReady | w0 e0 _ IH | w0 b _ IH].
  - reflexivity.
  - apply run_keeps_ready_uiOnly, IH.
  - exact IH.
Qed.

(** ** The editor controls *)

Lemma lastControls_app (l l' : list Effect) :
  lastControls (l ++ l') = fold_left controlsStep l' (lastControls l).
Proof. unfold lastControls. apply fold_left_app. Qed.

Lemma run_controls (uiOnly : bool) (e : Entry) (w : World) :
  (lastControls (log (snd (run uiOnly e w))) = lastControls (log w)
   /\ currentControls (store (snd (run uiOnly e w)))
      = currentControls (store w))
  \/ lastControls (log (snd (run uiOnly e w)))
     = Some (currentControls (store (snd (run uiOnly e w)))).
Proof.
  unfold currentControls.
  destruct e as [ | | | | | | | | | | | | | | | | | | | ev | c ];
    [ .. | destruct ev | destruct c ];
    unfold_methods; exec; split_cases;
    rewrite ?lastControls_app; simpl;
    first [ left; split; reflexivity | right; reflexivity ].
Qed.

Lemma run_keeps_controlsInSync (uiOnly : bool) (e : Entry) (w : World) :
  controlsInSync w -> controlsInSync (snd (run uiOnly e w)).
Proof.
  unfold controlsInSync. intros H.
  destruct (run_controls uiOnly e w) as [[Hl Hc] | Hl]; rewrite Hl.
  - rewrite Hc. exact H.
  - reflexivity.
Qed.

(** X4. In every world the store can reach, the game client knows the
    editor controls the store holds: the latest [setWorldEditorControls]
    call carried the current [editorSelect], [editorMode] and [editorLocal],
    and if no such call was made yet these three still have their initial
    values. *)
Theorem editor_controls_stay_in_sync :
  forall (uiOnly : bool) (w : World),
    reachable uiOnly w ->
    match lastControls (log w) with
    | Some c => c = (editorSelect (store w), editorMode (store w),
                     editorLocal (store w))
    | None => (editorSelect (store w), editorMode (store w),
               editorLocal (store w))
              = (false, EditorMode.TRANSLATE, false)
    end.
Proof.
  intros uiOnly w H. change (controlsInSync w).
  induction H as [seen archetypesReady | w e _ IH | w b _ IH].
  - unfold controlsInSync, initialWorld, constructor.
    destruct uiOnly; reflexivity.
  - apply run_keeps_controlsInSync, IH.
  - exact IH.
Qed.

Lemma toggleEditorLocal_run (w : World) :
  toggleEditorLocal w =
    (Normal tt,
     mkWorld (set_editorLocal (negb (editorLocal (store w))) (store w))
       (archetypesCollectionReady w) (nextRef w)
       (log w ++ [setWorldEditorControls (editorSelect (store w))
                    (editorMode (store w))
                    (negb (editorLocal (store w)))])).
Proof. reflexivity. Qed.

(** X5. Toggling the coordinate system twice brings the store back to
    where it was, and tells the game client both the toggled and the
    restored setting, in that order. *)
Theorem toggleEditorLocal_twice_restores :
  forall (w : World),
    fst ((toggleEditorLocal ;; toggleEditorLocal) w) = Normal tt
    /\ store (snd ((toggleEditorLocal ;; toggleEditorLocal) w)) = store w
    /\ emitted (toggleEditorLocal ;; toggleEditorLocal) w =
         [setWorldEditorControls (editorSelect (store w))
            (editorMode (store w)) (negb (editorLocal (store w)));
          setWorldEditorControls (editorSelect (store w))
            (editorMode (store w)) (editorLocal (store w))].
Proof.
  intros w.
  assert (H : (toggleEditorLocal ;; toggleEditorLocal) w =
    (Normal tt,
     mkWorld (store w) (archetypesCollectionReady w) (nextRef w)
       (log w ++ [setWorldEditorControls (editorSelect (store w))
                    (editorMode (store w)) (negb (editorLocal (store w)));
                  setWorldEditorControls (editorSelect (store w))
                    (editorMode (store w)) (editorLocal (store w))]))).
  { unfold bind at 1. rewrite toggleEditorLocal_run, toggleEditorLocal_run.
    simpl. rewrite negb_involutive, app_two.
    destruct w as [s a n l]. destruct s. reflexivity. }
  split; [rewrite H; reflexivity|].
  split; [rewrite H; reflexivity|].
  apply emitted_app. rewrite H. reflexivity.
Qed.

(** ** Leaving play mode again *)

(** X6. From EDITOR with a controller installed, entering play mode and
    leaving it again completes normally, brings every field of the store
    back to what it was, sends the game client the enter and then the exit
    event, and leaves the controller out of full control. *)
Theorem playtest_round_trip_restores_store :
  forall (relative : bool) (w : World) (ic : InputController),
    mode (store w) = WEMode.EDITOR ->
    inputController (store w) = Some ic ->
    let w' := snd ((enterPlaytestMode ;; enterEditorMode relative) w) in
    fst ((enterPlaytestMode ;; enterEditorMode relative) w) = Normal tt
    /\ store w' = store w
    /\ emitted (enterPlaytestMode ;; enterEditorMode relative) w =
         [sendGameClientEvent "we:enterPlaytestMode" (Literal "");
          InputController_call (controllerRef ic) enterFullControl;
          sendGameClientEvent "we:exitPlaytestMode"
            (Literal (if relative then "true" else ""));
          InputController_call (controllerRef ic) exitFullControl]
    /\ fullControl (controllerRef ic) (log w') = false.
Proof.
  intros relative w ic Hm Hic. cbv zeta.
  assert (H : (enterPlaytestMode ;; enterEditorMode relative) w =
    (Normal tt,
     mkWorld (store w) (archetypesCollectionReady w) (nextRef w)
       (log w ++
          [sendGameClientEvent "we:enterPlaytestMode" (Literal "");
           InputController_call (controllerRef ic) enterFullControl;
           sendGameClientEvent "we:exitPlaytestMode"
             (Literal (if relative then "true" else ""));
           InputController_call (controllerRef ic) exitFullControl]))).
  { unfold bind at 1. rewrite (enterPlaytestMode_from_editor w Hm).
    unfold controllerCompletion, controllerCalls. rewrite Hic.
    rewrite enterEditorMode_from_playtest by reflexivity.
    unfold controllerCompletion, controllerCalls. simpl. rewrite Hic.
    rewrite <- app_assoc. simpl.
    destruct w as [s a n l]. destruct s. simpl in *. subst. reflexivity. }
  rewrite H. simpl.
  split; [reflexivity|]. split; [reflexivity|].
  split; [apply emitted_app; rewrite H; reflexivity|].
  rewrite fullControl_app. simpl. rewrite Nat.eqb_refl. reflexivity.
Qed.

(** ** What every entry point announces *)

Ltac by_entry e :=
  destruct e as [ | | | | | | | | | | | | | | | | | | | ?ev | ?c ];
  [ .. | destruct ev | destruct c ];
  unfold emitted; unfold_methods; exec; split_cases;
  rewrite <- ?app_assoc;
  rewrite ?skipn_app, ?skipn_all, ?Nat.sub_diag; simpl.

Ltac in_cases :=
  repeat match goal with
    | H : _ \/ _ |- _ => destruct H
    | H : False |- _ => contradiction
    | H : @eq Effect _ _ |- _ =>
        first [ discriminate H | injection H; clear H; intros; subst ]
    end.

(** X7. No entry point changes the selection silently, and none announces
    a selection the store does not end up with: after any entry point the
    selection is either the one before, or the one carried by a
    [selectionChanged] event emitted during the call; and every
    [selectionChanged] event emitted carries the selection the store holds
    when the call ends. *)
Theorem selection_changes_are_announced :
  forall (uiOnly : bool) (e : Entry) (w : World),
    let w' := snd (run uiOnly e w) in
    (selection (store w') = selection (store w)
     \/ In (selectionChanged_emit (selection (store w')))
           (emitted (run uiOnly e) w))
    /\ (forall sel,
           In (selectionChanged_emit sel) (emitted (run uiOnly e) w) ->
           selection (store w') = sel).
Proof.
  intros uiOnly e w. cbv zeta. split.
  - by_entry e; first [ left; reflexivity | right; simpl; auto ].
  - intros sel. by_entry e; intros H; in_cases; reflexivity.
Qed.

(** X8. The mode changes only through [enterPlaytestMode] (also as the
    play-mode command) and [enterEditorMode], and never without the game
    client being sent the matching event in the same call. *)
Theorem mode_changes_are_sent_to_game_client :
  forall (uiOnly : bool) (e : Entry) (w : World),
    let w' := snd (run uiOnly e w) in
    mode (store w') = mode (store w)
    \/ ((e = do_enterPlaytestMode
         \/ e = do_command WECommand.ACTION_ENTER_PLAYTEST_MODE)
        /\ mode (store w') = WEMode.PLAYTEST
        /\ In (sendGameClientEvent "we:enterPlaytestMode" (Literal ""))
              (emitted (run uiOnly e) w))
    \/ (exists relative,
           e = do_enterEditorMode relative
           /\ mode (store w') = WEMode.EDITOR
           /\ In (sendGameClientEvent "we:exitPlaytestMode"
                    (Literal (if relative then "true" else "")))
                 (emitted (run uiOnly e) w)).
Proof.
  intros uiOnly e w. cbv zeta.
  by_entry e;
    first [ left; reflexivity
          | right; left; split; [auto|]; split; [reflexivity|];
            simpl; auto
          | right; right; eexists; split; [reflexivity|];
            split; [reflexivity|]; simpl; auto ].
Qed.

(** ** Errors *)

(** X9. The only way an entry point fails is a [TypeError] from calling a
    method on a controller that is not there: it happens only in a store
    without a controller, and only in [enterPlaytestMode] (also as the
    play-mode command), [enterEditorMode] and the two hotkey-configuration
    methods.  With a controller installed every entry point completes
    normally. *)
Theorem entry_points_throw_only_without_controller :
  forall (uiOnly : bool) (e : Entry) (w : World) (err : JSError),
    fst (run uiOnly e w) = Throw err ->
    inputController (store w) = None
    /\ (e = do_enterPlaytestMode
        \/ (exists relative, e = do_enterEditorMode relative)
        \/ e = do_enterHotkeyConfigurationMode
        \/ e = do_exitHotkeyConfigurationMode
        \/ e = do_command WECommand.ACTION_ENTER_PLAYTEST_MODE).
Proof.
  intros uiOnly e w err.
  destruct e as [ | | | | | | | | | | | | | | | | | | | ev | c ];
    [ .. | destruct ev | destruct c ];
    unfold_methods; exec; split_cases; intros H;
    first [ discriminate H | split; [reflexivity | eauto 10] ].
Qed.

(** X10. Entering play mode in a store without a controller throws only
    after the game client has been told and the mode has been set: the
    store is left in PLAYTEST.  A second attempt then returns normally
    without doing anything.  The hotkey-configuration methods, which do
    nothing before the call on the controller, throw and leave the world
    as it was. *)
Theorem enterPlaytestMode_fails_half_way :
  forall (w : World),
    inputController (store w) = None ->
    mode (store w) = WEMode.EDITOR ->
    let w' := snd (enterPlaytestMode w) in
    fst (enterPlaytestMode w) = Throw TypeError
    /\ mode (store w') = WEMode.PLAYTEST
    /\ emitted enterPlaytestMode w =
         [sendGameClientEvent "we:enterPlaytestMode" (Literal "")]
    /\ enterPlaytestMode w' = (Normal tt, w')
    /\ enterHotkeyConfigurationMode w = (Throw TypeError, w)
    /\ exitHotkeyConfigurationMode w = (Throw TypeError, w).
Proof.
  intros w Hic Hm. cbv zeta.
  rewrite (enterPlaytestMode_from_editor w Hm).
  unfold controllerCompletion, controllerCalls. rewrite Hic. simpl.
  split; [reflexivity|]. split; [reflexivity|].
  split.
  { apply emitted_app. rewrite (enterPlaytestMode_from_editor w Hm).
    unfold controllerCalls. rewrite Hic. reflexivity. }
  split; [apply enterPlaytestMode_in_playtest; reflexivity|].
  unfold enterHotkeyConfigurationMode, exitHotkeyConfigurationMode,
    callInputController. exec. rewrite Hic. split; reflexivity.
Qed.

(** ** The life of a controller *)

(** X11. Remounting the editor view while the store is in PLAYTEST
    (destroy the controller, create a new one, enter play mode again)
    completes normally but leaves the store in PLAYTEST with a new
    controller on which [enterFullControl] was never called:
    [destroyInputController] does not reset the mode, so
    [enterPlaytestMode] returns at its guard. *)
Theorem remount_in_playtest_skips_full_control :
  forall (c : Container) (w : World),
    mode (store w) = WEMode.PLAYTEST ->
    let remount :=
      destroyInputController ;; createInputController c ;; enterPlaytestMode
    in
    fst (remount w) = Normal tt
    /\ mode (store (snd (remount w))) = WEMode.PLAYTEST
    /\ inputController (store (snd (remount w)))
       = Some (mkInputController (nextRef w) c)
    /\ existsb isEnterFullControlCall (emitted remount w) = false
    /\ existsb isGameClientEvent (emitted remount w) = false.
Proof.
  intros c w Hm. cbv zeta.
  assert (H :
    (destroyInputController ;; createInputController c ;; enterPlaytestMode) w
    = (Normal tt,
       mkWorld
         (set_inputController (Some (mkInputController (nextRef w) c))
            (set_inputController None
               (set_selection selectNone (store w))))
         (archetypesCollectionReady w) (S (nextRef w))
         (log w ++ (selectionChanged_emit selectNone
                      :: controllerCalls (store w) destroy)
                ++ [new_InputController (mkInputController (nextRef w) c)
                      cb_setEditorSelect;
                    InputController_call (nextRef w)
                      (onEscapeFullControl cb_enterEditorMode);
                    InputController_call (nextRef w)
                      (onCameraMovementBaseMultiplierChange
                         cb_cameraSpeedMessage)]))).
  { unfold bind at 1. rewrite destroyInputController_run.
    unfold bind at 1. rewrite createInputController_run. cbn [store nextRef
      archetypesCollectionReady log].
    rewrite enterPlaytestMode_in_playtest by exact Hm.
    rewrite <- app_assoc. reflexivity. }
  rewrite H. cbn [fst snd store].
  split; [reflexivity|]. split; [exact Hm|]. split; [reflexivity|].
  rewrite (emitted_app _ w _ (f_equal (fun r => log (snd r)) H)).
  unfold controllerCalls.
  destruct (inputController (store w)); split; reflexivity.
Qed.

Lemma destroy_call_source (uiOnly : bool) (e : Entry) (w : World) (r : Ref) :
  In (InputController_call r destroy) (emitted (run uiOnly e) w) ->
  e = do_destroyInputController
  /\ (exists ic, inputController (store w) = Some ic /\ controllerRef ic = r)
  /\ inputController (store (snd (run uiOnly e w))) = None.
Proof.
  by_entry e; intros H; in_cases.
  split; [reflexivity|]. split; [eauto | reflexivity].
Qed.

(** X12. [destroy] is called on a controller only by
    [destroyInputController], only on the controller the store holds, and
    the store lets go of it in the same call.  So creating a controller
    over an existing one never destroys the old one, and destroying again
    right away calls [destroy] on nothing. *)
Theorem destroy_reaches_only_the_held_controller :
  forall (uiOnly : bool) (e : Entry) (w : World) (r : Ref),
    In (InputController_call r destroy) (emitted (run uiOnly e) w) ->
    e = do_destroyInputController
    /\ (exists ic, inputController (store w) = Some ic
                   /\ controllerRef ic = r)
    /\ inputController (store (snd (run uiOnly e w))) = None
    /\ existsb isDestroyCall
         (emitted destroyInputController (snd (run uiOnly e w))) = false.
Proof.
  intros uiOnly e w r H.
  destruct (destroy_call_source uiOnly e w r H) as (He & Hic & Hnone).
  split; [exact He|]. split; [exact Hic|]. split; [exact Hnone|].
  rewrite (emitted_app destroyInputController _
             (selectionChanged_emit selectNone
                :: controllerCalls (store (snd (run uiOnly e w))) destroy)).
  - unfold controllerCalls. rewrite Hnone. reflexivity.
  - rewrite destroyInputController_run. reflexivity.
Qed.

(** ** Calls on the map state *)

(** X13. Whatever entry point runs, a call on a map state goes to the map
    state the store holds when the entry point starts.  In particular a
    game-client request that arrives while no map is loaded (before
    [mapLoaded], after [closeMap]) is dropped: nothing is called, nothing
    thrown, nothing changed. *)
Theorem map_calls_reach_only_the_held_map :
  forall (uiOnly : bool) (e : Entry) (w : World) (r : Ref)
         (m : MapStateMethod) (request : MapRequest),
    (In (WEMapState_call r m) (emitted (run uiOnly e) w) ->
     exists ms, map (store w) = Some ms /\ mapStateRef ms = r)
    /\ (map (store w) = None ->
        bindEvents (window_createPatch request) w = (Normal tt, w)
        /\ bindEvents (window_setAddition request) w = (Normal tt, w)
        /\ bindEvents (window_applyPatchChange request) w = (Normal tt, w)
        /\ bindEvents (window_applyAdditionChange request) w
           = (Normal tt, w))
    /\ emitted (bindEvents (window_createPatch request))
         (snd (closeMap uiOnly w)) = [].
Proof.
  intros uiOnly e w r m request. split; [|split].
  - by_entry e; intros H; in_cases; eauto.
  - intros Hmap. unfold bindEvents, callMapIfAny. exec. rewrite Hmap.
    repeat split.
  - apply emitted_self. unfold bindEvents, callMapIfAny, closeMap. exec.
    destruct uiOnly; reflexivity.
Qed.

(** X14. [setAdditionOnGround] is asked of the map only by the
    set-on-ground command, only while the selection is of type ADDITION and
    a map is loaded, and with the selection's id.  With a patch or nothing
    selected, or with no map, the command does nothing at all. *)
Theorem set_on_ground_needs_selected_addition :
  forall (uiOnly : bool) (e : Entry) (w : World),
    (forall r additionId,
        In (WEMapState_call r (setAdditionOnGround additionId))
           (emitted (run uiOnly e) w) ->
        e = do_command WECommand.ACTION_SET_ADDITION_ON_GROUND
        /\ type (selection (store w)) = WESelectionType.ADDITION
        /\ additionId = id (selection (store w)))
    /\ (type (selection (store w)) <> WESelectionType.ADDITION
        \/ map (store w) = None ->
        bindCommands WECommand.ACTION_SET_ADDITION_ON_GROUND w
        = (Normal tt, w)).
Proof.
  intros uiOnly e w. split.
  - intros r additionId.
    by_entry e; intros H; in_cases.
    split; [reflexivity|]. split; [|reflexivity].
    apply WESelectionType_eqb_eq. assumption.
  - intros H. unfold bindCommands, setSelectedAdditionOnGround. exec.
    destruct (map (store w)) as [ms|]; [|reflexivity].
    destruct H as [H|H]; [|discriminate H].
    destruct (WESelectionType.eqb (type (selection (store w)))
                WESelectionType.ADDITION) eqn:E; [|reflexivity].
    apply WESelectionType_eqb_eq in E. contradiction.
Qed.

(** ** Selection messages *)

(** X15. A [we:selection] message sent to the game client always carries
    the selection the store holds when the call ends, so the two sides
    agree after every store-side change.  A selection that comes in from
    the game client is stored and announced on the event bus but never
    sent back. *)
Theorem selection_messages_carry_current_selection :
  forall (uiOnly : bool) (e : Entry) (w : World)
         (payload : Payload) (sel : WESelection),
    (In (sendGameClientEvent "we:selection" payload)
        (emitted (run uiOnly e) w) ->
     payload =
       JSON_stringify
         (ofSelection (selection (store (snd (run uiOnly e w))))))
    /\ selection (store (snd (bindEvents (window_selection sel) w))) = sel
    /\ emitted (bindEvents (window_selection sel)) w
       = [selectionChanged_emit sel].
Proof.
  intros uiOnly e w payload sel. split; [|split].
  - intros H. apply run_game_client_events in H.
    destruct H as [[H _] | [[H _] | [(cam & _ & H & _)
                  | [(cam & lookAt & _ & H & _) | (s & _ & H & Hs)]]]];
      try discriminate H.
    rewrite Hs. exact H.
  - reflexivity.
  - apply emitted_app. reflexivity.
Qed.

(** ** The camera-speed message *)

Lemma toInt32_range (x : number) : - 2 ^ 31 <= toInt32 x < 2 ^ 31.
Proof.
  unfold toInt32.
  pose proof (Z.mod_pos_bound (truncate x) (2 ^ 32) ltac:(lia)) as Hb.
  destruct (2 ^ 31 <=? truncate x mod 2 ^ 32) eqn:E.
  - apply Z.leb_le in E. lia.
  - apply Z.leb_gt in E. lia.
Qed.

(** X16. The camera-speed message always shows a whole percentage that
    fits a signed 32-bit integer, and shows [0%] when the reported speed is
    NaN, an infinity or a zero. *)
Theorem cameraSpeedMessage_shows_int32 :
  forall (speed : number),
    exists percent,
      cameraSpeedMessage speed
      = ("Camera speed: " ++ integerToString percent ++ "%")%string
      /\ - 2 ^ 31 <= percent < 2 ^ 31
      /\ ((forall sign m e, speed <> S754_finite sign m e) ->
          percent = 0
          /\ cameraSpeedMessage speed = "Camera speed: 0%").
Proof.
  intros speed.
  exists (toInt32 (SFmul prec emax speed (number_of_Z 100 false))).
  split; [reflexivity|]. split; [apply toInt32_range|].
  intros Hnf.
  destruct speed as [ [|] | [|] | | sign m e ];
    try (split; reflexivity).
  exfalso. exact (Hnf sign m e eq_refl).
Qed.

(** * The further properties at concrete stores *)

Lemma mapName_cuts_first_extension_witness :
  mapName ".fxworld" initialFields = ""
  /\ ((exists before after,
          "a.fxworld.fxworld" = (before ++ ".fxworld" ++ after)%string
          /\ mapName ".fxworld"
               (set_mapEntry
                  (Some (mkEntry "a.fxworld.fxworld" "maps/a.fxworld.fxworld"))
                  initialFields) = (before ++ after)%string
          /\ forall before' after',
               "a.fxworld.fxworld" = (before' ++ ".fxworld" ++ after')%string ->
               (String.length before <= String.length before')%nat)
      \/ (mapName ".fxworld"
            (set_mapEntry
               (Some (mkEntry "a.fxworld.fxworld" "maps/a.fxworld.fxworld"))
               initialFields) = "a.fxworld.fxworld"
          /\ forall before after,
               "a.fxworld.fxworld" <> (before ++ ".fxworld" ++ after)%string)).
Proof.
  split.
  - exact (proj1 (mapName_cuts_first_extension ".fxworld" initialFields)
             eq_refl).
  - exact (proj2 (mapName_cuts_first_extension ".fxworld"
                    (set_mapEntry
                       (Some (mkEntry "a.fxworld.fxworld"
                                "maps/a.fxworld.fxworld"))
                       initialFields))
             (mkEntry "a.fxworld.fxworld" "maps/a.fxworld.fxworld") eq_refl).
Defined.


Lemma ready_under_ui_only_witness :
  reachable true (snd (run true do_closeMap (initialWorld true false false)))
  /\ ready (store (snd (run true do_closeMap
                          (initialWorld true false false)))) = true.
Proof.
  assert (H : reachable true
                (snd (run true do_closeMap (initialWorld true false false)))).
  { apply reach_run, reach_initial. }
  split; [exact H|].
  exact (proj1 (ready_under_ui_only true do_closeMap _) H).
Defined.

Lemma editor_controls_stay_in_sync_witness :
  reachable false (snd (run false do_enableRotation mountedWorld))
  /\ Some (false, EditorMode.ROTATE, false)
     = Some (editorSelect
               (store (snd (run false do_enableRotation mountedWorld))),
             editorMode
               (store (snd (run false do_enableRotation mountedWorld))),
             editorLocal
               (store (snd (run false do_enableRotation mountedWorld)))).
Proof.
  assert (H : reachable false (snd (run false do_enableRotation mountedWorld))).
  { apply reach_run.
    apply (reach_run false _ (do_createInputController (ContainerRef 0))).
    apply reach_initial. }
  split; [exact H|].
  apply f_equal.
  exact (editor_controls_stay_in_sync false _ H).
Defined.

Lemma playtest_round_trip_restores_store_witness :
  mode (store mountedWorld) = WEMode.EDITOR
  /\ store (snd ((enterPlaytestMode ;; enterEditorMode false) mountedWorld))
     = store mountedWorld.
Proof.
  split; [reflexivity|].
  apply (playtest_round_trip_restores_store false mountedWorld
           (mkInputController 0%nat (ContainerRef 0)) eq_refl eq_refl).
Defined.

Lemma selection_changes_are_announced_witness :
  In (selectionChanged_emit selectNone)
     (emitted (run false do_destroyInputController) carSelectedWorld)
  /\ selection
       (store (snd (run false do_destroyInputController carSelectedWorld)))
     = selectNone.
Proof.
  assert (H : In (selectionChanged_emit selectNone)
                (emitted (run false do_destroyInputController)
                   carSelectedWorld)).
  { vm_compute. left. reflexivity. }
  split; [exact H|].
  exact (proj2 (selection_changes_are_announced false
                  do_destroyInputController carSelectedWorld)
           selectNone H).
Defined.

Lemma entry_points_throw_only_without_controller_witness :
  fst (run false do_enterPlaytestMode (initialWorld false false false))
  = Throw TypeError
  /\ inputController (store (initialWorld false false false)) = None.
Proof.
  split; [reflexivity|].
  exact (proj1 (entry_points_throw_only_without_controller false
                  do_enterPlaytestMode (initialWorld false false false)
                  TypeError eq_refl)).
Defined.

Lemma enterPlaytestMode_fails_half_way_witness :
  inputController (store (initialWorld false false false)) = None
  /\ mode (store (initialWorld false false false)) = WEMode.EDITOR
  /\ fst (enterPlaytestMode (initialWorld false false false))
     = Throw TypeError
  /\ mode (store (snd (enterPlaytestMode (initialWorld false false false))))
     = WEMode.PLAYTEST.
Proof.
  destruct (enterPlaytestMode_fails_half_way (initialWorld false false false)
              eq_refl eq_refl) as (Hthrow & Hmode & _).
  split; [reflexivity|]. split; [reflexivity|].
  split; [exact Hthrow | exact Hmode].
Defined.

Lemma remount_in_playtest_skips_full_control_witness :
  mode (store playingWorld) = WEMode.PLAYTEST
  /\ mode (store (snd ((destroyInputController ;;
                        createInputController (ContainerRef 1) ;;
                        enterPlaytestMode) playingWorld))) = WEMode.PLAYTEST
  /\ existsb isEnterFullControlCall
       (emitted (destroyInputController ;;
                 createInputController (ContainerRef 1) ;;
                 enterPlaytestMode) playingWorld) = false.
Proof.
  destruct (remount_in_playtest_skips_full_control (ContainerRef 1)
              playingWorld eq_refl) as (_ & Hmode & _ & Hnone & _).
  split; [reflexivity|]. split; [exact Hmode | exact Hnone].
Defined.

Lemma destroy_reaches_only_the_held_controller_witness :
  In (InputController_call 0%nat destroy)
     (emitted (run false do_destroyInputController) mountedWorld)
  /\ inputController
       (store (snd (run false do_destroyInputController mountedWorld)))
     = None.
Proof.
  assert (H : In (InputController_call 0%nat destroy)
                (emitted (run false do_destroyInputController)
                   mountedWorld)).
  { vm_compute. right. left. reflexivity. }
  split; [exact H|].
  destruct (destroy_reaches_only_the_held_controller false
              do_destroyInputController mountedWorld 0%nat H)
    as (_ & _ & Hnone & _).
  exact Hnone.
Defined.

Lemma map_calls_reach_only_the_held_map_witness :
  map (store mountedWorld) = None
  /\ bindEvents (window_createPatch (RequestData "{}")) mountedWorld
     = (Normal tt, mountedWorld).
Proof.
  split; [reflexivity|].
  destruct (map_calls_reach_only_the_held_map false do_closeMap mountedWorld
              0%nat (handleCreatePatchRequest (RequestData "{}"))
              (RequestData "{}")) as (_ & Hdrop & _).
  exact (proj1 (Hdrop eq_refl)).
Defined.

Lemma set_on_ground_needs_selected_addition_witness :
  map (store carSelectedWorld) = None
  /\ bindCommands WECommand.ACTION_SET_ADDITION_ON_GROUND carSelectedWorld
     = (Normal tt, carSelectedWorld).
Proof.
  split; [reflexivity|].
  apply (proj2 (set_on_ground_needs_selected_addition false do_closeMap
                  carSelectedWorld)).
  right. reflexivity.
Defined.

Lemma selection_messages_carry_current_selection_witness :
  In (sendGameClientEvent "we:selection"
        (JSON_stringify (ofSelection selectNone)))
     (emitted (run false do_clearEditorSelection) carSelectedWorld)
  /\ JSON_stringify (ofSelection selectNone)
     = JSON_stringify
         (ofSelection
            (selection
               (store (snd (run false do_clearEditorSelection
                              carSelectedWorld))))).
Proof.
  assert (H : In (sendGameClientEvent "we:selection"
                    (JSON_stringify (ofSelection selectNone)))
                (emitted (run false do_clearEditorSelection)
                   carSelectedWorld)).
  { vm_compute. right. left. reflexivity. }
  split; [exact H|].
  exact (proj1 (selection_messages_carry_current_selection false
                  do_clearEditorSelection carSelectedWorld
                  (JSON_stringify (ofSelection selectNone)) selectNone) H).
Defined.

Lemma cameraSpeedMessage_shows_int32_witness :
  exists percent,
    cameraSpeedMessage S754_nan
    = ("Camera speed: " ++ integerToString percent ++ "%")%string
    /\ - 2 ^ 31 <= percent < 2 ^ 31
    /\ percent = 0
    /\ cameraSpeedMessage S754_nan = "Camera speed: 0%".
Proof.
  destruct (cameraSpeedMessage_shows_int32 S754_nan)
    as (percent & Hmsg & Hrange & Hzero).
  exists percent. split; [exact Hmsg|]. split; [exact Hrange|].
  apply Hzero. intros sign m e. discriminate.
Defined.
